(** * AI Soccer backend: the analysis core of [server.js]

    A shallow embedding of [server.js]: the feature encoder, the mock
    analyzer, the vector composer, the similarity ranker, the suggestion
    generator and the [POST /analyze] handler that chains them.

    Numbers.  JavaScript numbers are IEEE-754 doubles.  They are idealised
    here as real numbers: [+], [-], [*], [/] and [Math.sqrt] are the exact
    operations on [R], so rounding error and the infinities are outside the
    model.  [NaN] can arise from well-typed input in one place only, when
    an array is read past its end ([undefined] times a number); that result
    is modelled by [None].  The four metrics are integers (results of
    [Math.round]) and are kept in [Z].

    Types.  The numeric attributes of a player are taken as numbers.  A
    request whose numeric attributes are missing or are not JSON numbers
    makes the source compute with coerced values; the handler's model
    marks such a request [Untyped] and says nothing more about it. *)

From Stdlib Require Import String Ascii Strings.Byte Bool ZArith QArith.
From Stdlib Require Import Reals Lra Lia.
From Stdlib Require Import List Sorted Permutation.
Import ListNotations.

Set Warnings "-register-all".

Open Scope string_scope.
Open Scope list_scope.
Open Scope R_scope.

(** ** JavaScript values and built-ins used by the program *)

(** What [JSON.parse] can return.  An object keeps its members in source
    order, duplicates included. *)
Inductive json : Type :=
| JNull
| JBool (b : bool)
| JNumber (q : Q)
| JString (s : string)
| JArray (items : list json)
| JObject (members : list (string * json)).

(** A property read: [None] is [undefined]. *)
Definition value : Type := option json.

(** [v === 'lit'] for a string literal: true exactly for the string itself,
    with no coercion. *)
Definition strict_eq_string (v : value) (lit : string) : bool :=
  match v with
  | Some (JString s) => String.eqb s lit
  | _ => false
  end.

Notation "v === s" := (strict_eq_string v s) (at level 70, no associativity).

Definition Math_min (x y : R) : R := Rmin x y.
Definition Math_max (x y : R) : R := Rmax x y.

(** [Math.round]: the nearest integer, a tie going up. *)
Definition Math_round (x : R) : Z := Zfloor (x + / 2).

(** A parameter default [x = d]: used when the argument is [undefined]. *)
Definition default_param (d : R) (x : option R) : R :=
  match x with
  | Some v => v
  | None => d
  end.

(** *** Exceptions *)

Inductive exn : Type := SyntaxError | TypeError | IOError.

(** How a computation ends: with a value, with an exception, or outside
    the typed fragment of the model. *)
Inductive outcome (A : Type) : Type :=
| Returns (a : A)
| Throws (e : exn)
| Untyped.

Arguments Returns {A} a.
Arguments Throws {A} e.
Arguments Untyped {A}.

Definition bind {A B : Type} (m : outcome A) (k : A -> outcome B)
  : outcome B :=
  match m with
  | Returns a => k a
  | Throws e => Throws e
  | Untyped => Untyped
  end.

Notation "x <- m ;; k" := (bind m (fun x => k))
  (at level 61, m at next level, right associativity).

(** [try { body } catch (e) { handler }] *)
Definition try_catch {A : Type} (body : outcome A) (handler : exn -> outcome A)
  : outcome A :=
  match body with
  | Throws e => handler e
  | _ => body
  end.

(** *** [JSON.parse]

    The grammar of ECMA-404 over the UTF-8 bytes of the text.  A number
    denotes its exact decimal value.  A [\u] escape is stored as the UTF-8
    bytes of its code unit. *)

Module Json.

Definition is_ws (c : byte) : bool :=
  Byte.eqb c x20 || Byte.eqb c x09 || Byte.eqb c x0a || Byte.eqb c x0d.

Fixpoint skip_ws (s : list byte) : list byte :=
  match s with
  | c :: r => if is_ws c then skip_ws r else s
  | [] => []
  end.

(** [eat c s]: the rest of [s] after a leading [c]. *)
Definition eat (c : byte) (s : list byte) : option (list byte) :=
  match s with
  | d :: r => if Byte.eqb c d then Some r else None
  | [] => None
  end.

Fixpoint eat_all (lit : list byte) (s : list byte) : option (list byte) :=
  match lit with
  | [] => Some s
  | c :: lit' =>
      match eat c s with
      | Some r => eat_all lit' r
      | None => None
      end
  end.

Definition keyword (lit : string) (s : list byte) : option (list byte) :=
  eat_all (list_byte_of_string lit) s.

Definition digit (c : byte) : option Z :=
  let n := Z.of_N (Byte.to_N c) in
  if ((48 <=? n) && (n <=? 57))%Z then Some (n - 48)%Z else None.

(** The longest run of digits at the head of [s], read in base ten on
    top of [acc]; with it, how many digits were read and what follows. *)
Fixpoint digits (s : list byte) (acc : Z) (count : nat)
  : Z * nat * list byte :=
  match s with
  | c :: r =>
      match digit c with
      | Some d => digits r (10 * acc + d)%Z (S count)
      | None => (acc, count, s)
      end
  | [] => (acc, count, s)
  end.

(** [m * 10 ^ e] *)
Definition decimal (m e : Z) : Q :=
  if (0 <=? e)%Z then inject_Z (m * 10 ^ e)
  else Qmake m (Z.to_pos (10 ^ (- e))).

(** The integer part: a lone zero, or a digit from 1 to 9 and the digits
    after it. *)
Definition parse_int (s : list byte) : option (Z * list byte) :=
  match s with
  | [] => None
  | c :: r =>
      match digit c with
      | None => None
      | Some d =>
          if (d =? 0)%Z then Some (0%Z, r)
          else let '(m, _, r) := digits r d O in Some (m, r)
      end
  end.

(** The fraction, if there is one: its digits are appended to the integer
    part [m]; their number is returned with the result. *)
Definition parse_fraction (m : Z) (s : list byte)
  : option (Z * nat * list byte) :=
  match eat x2e s with
  | Some r =>
      let '(m, n, r) := digits r m O in
      if (n =? 0)%nat then None else Some (m, n, r)
  | None => Some (m, O, s)
  end.

(** The exponent, if there is one: [e] or [E], a sign, digits. *)
Definition parse_exponent (s : list byte) : option (Z * list byte) :=
  match s with
  | [] => Some (0%Z, s)
  | c :: r =>
      if Byte.eqb c x65 || Byte.eqb c x45 then
        let (minus, r) :=
          match eat x2d r, eat x2b r with
          | Some r', _ => (true, r')
          | None, Some r' => (false, r')
          | None, None => (false, r)
          end in
        let '(e, n, r) := digits r 0%Z O in
        if (n =? 0)%nat then None
        else Some (if minus then (- e)%Z else e, r)
      else Some (0%Z, s)
  end.

Definition parse_unsigned (s : list byte) : option (Q * list byte) :=
  match parse_int s with
  | None => None
  | Some (m, r) =>
      match parse_fraction m r with
      | None => None
      | Some (m, scale, r) =>
          match parse_exponent r with
          | None => None
          | Some (e, r) => Some (decimal m (e - Z.of_nat scale), r)
          end
      end
  end.

Definition parse_number (s : list byte) : option (Q * list byte) :=
  match eat x2d s with
  | Some r =>
      match parse_unsigned r with
      | Some (q, r) => Some (Qopp q, r)
      | None => None
      end
  | None => parse_unsigned s
  end.

Definition hex (c : byte) : option N :=
  let n := Byte.to_N c in
  if ((48 <=? n) && (n <=? 57))%N then Some (n - 48)%N
  else if ((65 <=? n) && (n <=? 70))%N then Some (n - 55)%N
  else if ((97 <=? n) && (n <=? 102))%N then Some (n - 87)%N
  else None.

Definition byte_of (n : N) : byte :=
  match Byte.of_N n with
  | Some b => b
  | None => x00
  end.

(** The UTF-8 bytes of a code unit below [0x10000]. *)
Definition utf8 (u : N) : list byte :=
  if (u <? 128)%N then [byte_of u]
  else if (u <? 2048)%N then
    [byte_of (192 + u / 64); byte_of (128 + u mod 64)]
  else
    [byte_of (224 + u / 4096); byte_of (128 + (u / 64) mod 64);
     byte_of (128 + u mod 64)].

Definition simple_escape (e : byte) : option byte :=
  if Byte.eqb e x22 || Byte.eqb e x5c || Byte.eqb e x2f then Some e
  else if Byte.eqb e x62 then Some x08
  else if Byte.eqb e x66 then Some x0c
  else if Byte.eqb e x6e then Some x0a
  else if Byte.eqb e x72 then Some x0d
  else if Byte.eqb e x74 then Some x09
  else None.

(** The characters of a string up to its closing quote; [acc] holds the
    bytes read so far, last first. *)
Fixpoint parse_string (s : list byte) (acc : list byte)
  : option (string * list byte) :=
  match s with
  | [] => None
  | c :: r =>
      if Byte.eqb c x22 then Some (string_of_list_byte (rev acc), r)
      else if Byte.eqb c x5c then
        match r with
        | [] => None
        | e :: r1 =>
            match simple_escape e with
            | Some b => parse_string r1 (b :: acc)
            | None =>
                if Byte.eqb e x75 then
                  match r1 with
                  | h1 :: h2 :: h3 :: h4 :: r2 =>
                      match hex h1, hex h2, hex h3, hex h4 with
                      | Some a, Some b, Some c, Some d =>
                          let u := (((a * 16 + b) * 16 + c) * 16 + d)%N in
                          parse_string r2 (rev (utf8 u) ++ acc)
                      | _, _, _, _ => None
                      end
                  | _ => None
                  end
                else None
            end
        end
      else if (Byte.to_N c <? 32)%N then None
      else parse_string r (c :: acc)
  end.

Fixpoint parse_value (fuel : nat) (s : list byte)
  : option (json * list byte) :=
  match fuel with
  | O => None
  | S fuel =>
      let s := skip_ws s in
      match keyword "null" s, keyword "true" s, keyword "false" s with
      | Some r, _, _ => Some (JNull, r)
      | _, Some r, _ => Some (JBool true, r)
      | _, _, Some r => Some (JBool false, r)
      | None, None, None =>
          match eat x22 s, eat x5b s, eat x7b s with
          | Some r, _, _ =>
              match parse_string r [] with
              | Some (str, r) => Some (JString str, r)
              | None => None
              end
          | _, Some r, _ =>
              match eat x5d (skip_ws r) with
              | Some r => Some (JArray [], r)
              | None =>
                  match parse_elements fuel r with
                  | Some (items, r) => Some (JArray items, r)
                  | None => None
                  end
              end
          | _, _, Some r =>
              match eat x7d (skip_ws r) with
              | Some r => Some (JObject [], r)
              | None =>
                  match parse_members fuel r with
                  | Some (members, r) => Some (JObject members, r)
                  | None => None
                  end
              end
          | None, None, None =>
              match parse_number s with
              | Some (q, r) => Some (JNumber q, r)
              | None => None
              end
          end
      end
  end

with parse_elements (fuel : nat) (s : list byte)
  : option (list json * list byte) :=
  match fuel with
  | O => None
  | S fuel =>
      match parse_value fuel s with
      | None => None
      | Some (v, r) =>
          let r := skip_ws r in
          match eat x2c r, eat x5d r with
          | Some r, _ =>
              match parse_elements fuel r with
              | Some (vs, r) => Some (v :: vs, r)
              | None => None
              end
          | None, Some r => Some ([v], r)
          | None, None => None
          end
      end
  end

with parse_members (fuel : nat) (s : list byte)
  : option (list (string * json) * list byte) :=
  match fuel with
  | O => None
  | S fuel =>
      match eat x22 (skip_ws s) with
      | None => None
      | Some r =>
          match parse_string r [] with
          | None => None
          | Some (key, r) =>
              match eat x3a (skip_ws r) with
              | None => None
              | Some r =>
                  match parse_value fuel r with
                  | None => None
                  | Some (v, r) =>
                      let r := skip_ws r in
                      match eat x2c r, eat x7d r with
                      | Some r, _ =>
                          match parse_members fuel r with
                          | Some (ms, r) => Some ((key, v) :: ms, r)
                          | None => None
                          end
                      | None, Some r => Some ([(key, v)], r)
                      | None, None => None
                      end
                  end
              end
          end
      end
  end.

End Json.

(** [JSON.parse]: the text must be one value between optional white
    space.  The fuel given is enough for every text ([JSON_parse_fuel]
    below). *)
Definition JSON_parse (text : string) : outcome json :=
  let s := list_byte_of_string text in
  match Json.parse_value (2 * length s + 2) s with
  | Some (v, r) =>
      match Json.skip_ws r with
      | [] => Returns v
      | _ :: _ => Throws SyntaxError
      end
  | None => Throws SyntaxError
  end.

(** ** The feature encoder *)

Record PlayerAttributes : Type := {
  height_cm : R;
  dominant_foot : value;
  position : value;
  age : R;
  pace : option R;
  dribbling : option R;
  passing : option R;
  shooting : option R
}.

Definition posMap : list string :=
  ["winger"; "striker"; "midfielder"; "defender"; "goalkeeper"].

Definition extractFeatures (attrs : PlayerAttributes) : list R :=
  let pace := default_param 0.6 (pace attrs) in
  let dribbling := default_param 0.6 (dribbling attrs) in
  let passing := default_param 0.6 (passing attrs) in
  let shooting := default_param 0.6 (shooting attrs) in
  let footR := if dominant_foot attrs === "right" then 1 else 0 in
  let footL := if dominant_foot attrs === "left" then 1 else 0 in
  let footTwo := if dominant_foot attrs === "two-footed" then 1 else 0 in
  let posVec := map (fun p => if position attrs === p then 1 else 0) posMap in
  let h := Math_min (Math_max ((height_cm attrs - 150) / 50) 0) 1 in
  let a := Math_min (Math_max ((age attrs - 12) / 20) 0) 1 in
  [h; a; pace; dribbling; passing; shooting; footR; footL; footTwo] ++ posVec.

(** ** Cosine similarity *)

(** The three accumulators of the loop in [cosineSim]. *)
Record acc : Type := { dot : R; na : R; nb : R }.

(** One turn of the loop at index [i].  [a !! i] is always in range; when
    [b !! i] is [undefined] the products are [NaN] and stay so. *)
Definition cosineSim_step (a b : list R) (st : option acc) (i : nat)
  : option acc :=
  match st, nth_error a i, nth_error b i with
  | Some s, Some ai, Some bi =>
      Some {| dot := dot s + ai * bi;
              na := na s + ai * ai;
              nb := nb s + bi * bi |}
  | _, _, _ => None
  end.

(** [None] stands for [NaN]. *)
Definition cosineSim (a b : list R) : option R :=
  match fold_left (cosineSim_step a b) (seq 0 (length a))
                  (Some {| dot := 0; na := 0; nb := 0 |}) with
  | Some s =>
      let denom := sqrt (na s) * sqrt (nb s) + 1e-9 in
      Some (dot s / denom)
  | None => None
  end.

(** ** The mock analyzer *)

Record Metrics : Type := {
  kneeFlex : Z;
  bodyLean : Z;
  sprintTempo : Z;
  touches : Z
}.

(** The state of the random generator: the draws still to come. *)
Definition RNG : Type := nat -> R.

Definition Math_random (g : RNG) : R * RNG :=
  (g 0%nat, fun n => g (S n)).

Definition analyzeVideoMock (g : RNG) : Metrics * RNG :=
  let (r1, g) := Math_random g in
  let kneeFlex := Math_round (30 + r1 * 60) in
  let (r2, g) := Math_random g in
  let bodyLean := Math_round (5 + r2 * 25) in
  let (r3, g) := Math_random g in
  let sprintTempo := Math_round (140 + r3 * 60) in
  let (r4, g) := Math_random g in
  let touches := Math_round (10 + r4 * 25) in
  ({| kneeFlex := kneeFlex; bodyLean := bodyLean;
      sprintTempo := sprintTempo; touches := touches |}, g).

(** ** Coaching suggestions *)

Definition suggestion_knee : string :=
  "Increase knee flexion during acceleration to improve power (add wall-sit holds and mini-hurdles).".
Definition suggestion_lean : string :=
  "Add forward body-lean on first 2–3 steps; try 'lean & go' resisted sprints.".
Definition suggestion_tempo : string :=
  "Improve step cadence with 10m fast-feet ladders and 5x10m accelerations.".
Definition suggestion_touches : string :=
  "Raise ball-contact frequency; 3x2min tight touches and V-pulls.".
Definition suggestion_fallback : string :=
  "Great base mechanics—progress to position-specific drills and resisted sprints.".

(** [out.push(s)] *)
Definition push {A : Type} (out : list A) (x : A) : list A := out ++ [x].

Definition suggestionsFromMetrics (m : Metrics) : list string :=
  let out := [] in
  let out := if (kneeFlex m <? 50)%Z then push out suggestion_knee else out in
  let out := if (bodyLean m <? 10)%Z then push out suggestion_lean else out in
  let out := if (sprintTempo m <? 160)%Z then push out suggestion_tempo else out in
  let out := if (touches m <? 15)%Z then push out suggestion_touches else out in
  let out := if (length out =? 0)%nat then push out suggestion_fallback else out in
  out.

(** ** The vector composer *)

Definition metricVec (metrics : Metrics) : list R :=
  [ Math_min (IZR (kneeFlex metrics) / 120) 1;
    Math_min (IZR (bodyLean metrics) / 45) 1;
    Math_min (IZR (sprintTempo metrics) / 220) 1;
    Math_min (IZR (touches metrics) / 60) 1 ].

Definition playerVec (attrs : PlayerAttributes) (metrics : Metrics) : list R :=
  extractFeatures attrs ++ metricVec metrics.

(** ** The similarity ranker *)

(** An entry of [pros.json]. *)
Module Pro.
Record t : Type := {
  name : value;
  position : value;
  club : value;
  features : list R
}.
End Pro.

(** What the ranker builds for an entry. *)
Module Ranked.
Record t : Type := {
  name : value;
  position : value;
  club : value;
  similarity : option R
}.
End Ranked.

(** The callback of [pros.map]. *)
Definition score (playerVec : list R) (p : Pro.t) : Ranked.t :=
  let sim := cosineSim playerVec (Pro.features p) in
  {| Ranked.name := Pro.name p;
     Ranked.position := Pro.position p;
     Ranked.club := Pro.club p;
     Ranked.similarity := sim |}.

(** The comparator [(a, b) => b.similarity - a.similarity]; a difference
    with [NaN] is [NaN]. *)
Definition compareFn (a b : Ranked.t) : option R :=
  match Ranked.similarity b, Ranked.similarity a with
  | Some sb, Some sa => Some (sb - sa)
  | _, _ => None
  end.

Section ArraySort.
Context {A : Type} (comparefn : A -> A -> option R).

(** [x], which stands before [y], is moved behind it exactly when
    [comparefn(x, y) > 0]; a [NaN] answer counts as [0]. *)
Definition goes_after (x y : A) : bool :=
  match comparefn x y with
  | Some v => if Rlt_dec 0 v then true else false
  | None => false
  end.

Fixpoint sort_insert (x : A) (sorted : list A) : list A :=
  match sorted with
  | [] => [x]
  | y :: rest =>
      if goes_after x y then y :: sort_insert x rest else x :: sorted
  end.

(** [Array.prototype.sort]: a stable sort.  For a comparator that is a
    consistent ordering every stable sort yields the same array;
    insertion from the right end is the one written here.  It is the
    engine's result when no similarity is [NaN] and when all are.  When
    the comparator answers [NaN] for some pairs only it is not consistent,
    the language leaves the order to the engine, and the order computed
    here need not be the engine's: the theorems on the order below are
    stated for the two cases named. *)
Fixpoint Array_sort (l : list A) : list A :=
  match l with
  | [] => []
  | x :: rest => sort_insert x (Array_sort rest)
  end.
End ArraySort.

(** [arr.slice(0, n)] *)
Definition Array_slice0 {A : Type} (n : nat) (arr : list A) : list A :=
  firstn n arr.

Definition ranked (pros : list Pro.t) (playerVec : list R) : list Ranked.t :=
  Array_sort compareFn (map (score playerVec) pros).

Definition top (pros : list Pro.t) (playerVec : list R) : list Ranked.t :=
  Array_slice0 5 (ranked pros playerVec).

(** ** The [POST /analyze] handler *)

(** The property read [o.key] on a parsed value: of the members of an
    object with that key the last one counts; no other JSON value has any
    of the properties the program asks for. *)
Fixpoint lookup (key : string) (members : list (string * json)) : value :=
  match members with
  | [] => None
  | (k, v) :: rest =>
      match lookup key rest with
      | Some later => Some later
      | None => if String.eqb k key then Some v else None
      end
  end.

Definition get (o : json) (key : string) : value :=
  match o with
  | JObject members => lookup key members
  | _ => None
  end.

(** A numeric attribute is in the typed fragment when it is a number. *)
Definition as_number (v : value) : outcome R :=
  match v with
  | Some (JNumber q) => Returns (Q2R q)
  | _ => Untyped
  end.

(** A skill score may also be missing; its default then applies. *)
Definition as_optional_number (v : value) : outcome (option R) :=
  match v with
  | None => Returns None
  | Some (JNumber q) => Returns (Some (Q2R q))
  | Some _ => Untyped
  end.

(** The parameter pattern [{ height_cm, dominant_foot, ... }] of
    [extractFeatures]: destructuring [null] throws, any other value is
    read property by property. *)
Definition destructure (attrs : json) : outcome PlayerAttributes :=
  match attrs with
  | JNull => Throws TypeError
  | _ =>
      height_cm <- as_number (get attrs "height_cm") ;;
      age <- as_number (get attrs "age") ;;
      pace <- as_optional_number (get attrs "pace") ;;
      dribbling <- as_optional_number (get attrs "dribbling") ;;
      passing <- as_optional_number (get attrs "passing") ;;
      shooting <- as_optional_number (get attrs "shooting") ;;
      Returns {| height_cm := height_cm;
                 dominant_foot := get attrs "dominant_foot";
                 position := get attrs "position";
                 age := age;
                 pace := pace;
                 dribbling := dribbling;
                 passing := passing;
                 shooting := shooting |}
  end.

(** What the handler takes from its surroundings during one request. *)
Record Host : Type := {
  random : RNG;        (* the state of [Math.random] *)
  uuid : string;       (* the result of [uuidv4()] *)
  now : string;        (* [new Date().toISOString()] *)
  writable : bool      (* whether the session file can be written *)
}.

(** The record saved under [sessions/]. *)
Module Session.
Record t : Type := {
  id : string;
  created_at : string;
  attrs : json;
  metrics : Metrics;
  similar_players : list Ranked.t
}.
End Session.

Inductive body : Type :=
| ErrorBody (error : string)
| AnalysisBody (session_id : string) (metrics : Metrics)
               (suggestions : list string) (similar_players : list Ranked.t).

Record response : Type := { status : nat; sent : body }.

(** [fs.writeFileSync] *)
Definition writeFileSync (host : Host) (record : Session.t)
  : outcome (option Session.t) :=
  if writable host then Returns (Some record) else Throws IOError.

(** [!attrRaw]: the field is absent or is the empty string. *)
Definition falsy (attrRaw : option string) : bool :=
  match attrRaw with
  | None => true
  | Some text => String.eqb text EmptyString
  end.

(** The text [JSON.parse] reads from its argument. *)
Definition ToString (attrRaw : option string) : string :=
  match attrRaw with
  | None => "undefined"
  | Some text => text
  end.

Definition missing_attributes : response :=
  {| status := 400; sent := ErrorBody "Missing attributes" |}.

Definition failed_to_analyze : response :=
  {| status := 500; sent := ErrorBody "Failed to analyze" |}.

(** The [try] block.  The result pairs the response with the session
    file written, if any. *)
Definition analyze_try (pros : list Pro.t) (host : Host)
           (attrRaw : option string)
  : outcome (response * option Session.t) :=
  if falsy attrRaw then Returns (missing_attributes, None)
  else
    attrs <- JSON_parse (ToString attrRaw) ;;
    typed <- destructure attrs ;;
    let (metrics, _) := analyzeVideoMock (random host) in
    let playerVec := playerVec typed metrics in
    let top := top pros playerVec in
    let suggestions := suggestionsFromMetrics metrics in
    let id := substring 0 8 (uuid host) in
    let record :=
      {| Session.id := id;
         Session.created_at := now host;
         Session.attrs := attrs;
         Session.metrics := metrics;
         Session.similar_players := top |} in
    saved <- writeFileSync host record ;;
    Returns ({| status := 200;
                sent := AnalysisBody id metrics suggestions top |}, saved).

(** The handler: the [try] block under its catch-all. *)
Definition analyze (pros : list Pro.t) (host : Host) (attrRaw : option string)
  : outcome (response * option Session.t) :=
  try_catch (analyze_try pros host attrRaw)
            (fun _ => Returns (failed_to_analyze, None)).

(** ** Notions used by the theorems

    The definitions below are not taken from the source.  They word what
    the specification says, for the theorems to compare the source with;
    the last one is about the fuel of the JSON parser. *)

(** The dot product and the Euclidean norm, as the specification words
    them. *)
Definition dot_product (a b : list R) : R :=
  fold_right Rplus 0 (map (fun p => fst p * snd p) (combine a b)).

Definition euclidean_norm (a : list R) : R := sqrt (dot_product a a).

Definition cosine_formula (a b : list R) : R :=
  dot_product a b / (euclidean_norm a * euclidean_norm b + 1e-9).

(** Whether the entry carries the similarity [k]. *)
Definition has_similarity (k : R) (x : Ranked.t) : bool :=
  match Ranked.similarity x with
  | Some s => if Req_dec_T s k then true else false
  | None => false
  end.

(** [x] may stand before [y] in a descending order: both similarities are
    numbers and the first is not the smaller one. *)
Definition descending (x y : Ranked.t) : Prop :=
  match Ranked.similarity x, Ranked.similarity y with
  | Some sx, Some sy => sy <= sx
  | _, _ => False
  end.

Definition is_number (x : Ranked.t) : Prop :=
  exists s, Ranked.similarity x = Some s.

(** The four rules as a table: the metric read, its threshold, the text. *)
Definition threshold_rules : list ((Metrics -> Z) * Z * string) :=
  [ (kneeFlex, 50%Z, suggestion_knee);
    (bodyLean, 10%Z, suggestion_lean);
    (sprintTempo, 160%Z, suggestion_tempo);
    (touches, 15%Z, suggestion_touches) ].

(** The texts of the rules that fire, in table order. *)
Definition fired (m : Metrics) : list string :=
  map snd
      (filter (fun r => (fst (fst r) m <? snd (fst r))%Z) threshold_rules).

(** The fuel [fuel] is never the reason a parse fails: whenever [parse]
    succeeds with it, it read at least one byte and succeeds alike with
    any fuel that is at least the number of bytes read. *)
Definition enough {A : Type} (parse : nat -> list byte -> option (A * list byte))
           (fuel : nat) : Prop :=
  forall (s r : list byte) (a : A),
    parse fuel s = Some (a, r) ->
    (length r < length s)%nat /\
    forall fuel', (length s - length r <= fuel')%nat ->
                  parse fuel' s = Some (a, r).

(** The vector of length [n] with 1 at index [i] and 0 elsewhere. *)
Definition one_hot (n i : nat) : list R :=
  map (fun j => if (j =? i)%nat then 1 else 0) (seq 0 n).

Definition in_unit_interval (x : R) : Prop := 0 <= x <= 1.

(** The roster entry with its vector cut to its first [n] components. *)
Definition truncated (n : nat) (p : Pro.t) : Pro.t :=
  {| Pro.name := Pro.name p;
     Pro.position := Pro.position p;
     Pro.club := Pro.club p;
     Pro.features := firstn n (Pro.features p) |}.

(** ** Sample data *)

(** The attributes of the end-to-end example of the specification. *)
Definition sample_attrs : PlayerAttributes :=
  {| height_cm := 180;
     dominant_foot := Some (JString "right");
     position := Some (JString "striker");
     age := 22;
     pace := None; dribbling := None; passing := None; shooting := None |}.

(** The metrics obtained when every draw is one half. *)
Definition sample_metrics : Metrics :=
  {| kneeFlex := 60; bodyLean := 18; sprintTempo := 170; touches := 23 |}.

Definition sample_entry (label : string) (features : list R) : Pro.t :=
  {| Pro.name := Some (JString label);
     Pro.position := Some (JString "striker");
     Pro.club := Some (JString "club");
     Pro.features := features |}.

(** A roster of three entries with vectors of length 21, as the README
    describes [pros.json]. *)
Definition sample_pros : list Pro.t :=
  [ sample_entry "first" (repeat (/ 2) 21);
    sample_entry "second" (1 :: repeat 0 20);
    sample_entry "third" (repeat (/ 2) 21) ].

Definition sample_host : Host :=
  {| random := fun _ => / 2;
     uuid := "0f8fad5b-d9cb-469f-a165-70867728950e";
     now := "2024-05-01T12:00:00.000Z";
     writable := true |}.

Definition with_similarity (label : string) (s : R) : Ranked.t :=
  {| Ranked.name := Some (JString label);
     Ranked.position := None;
     Ranked.club := None;
     Ranked.similarity := Some s |}.

(** [s] between double quotes. *)
Definition quoted (s : string) : string :=
  String (ascii_of_nat 34) (s ++ String (ascii_of_nat 34) EmptyString)%string.

(** The attributes field of the end-to-end example, as sent. *)
Definition sample_text : string :=
  ("{" ++ quoted "height_cm" ++ ":180, "
       ++ quoted "dominant_foot" ++ ":" ++ quoted "right" ++ ", "
       ++ quoted "position" ++ ":" ++ quoted "striker" ++ ", "
       ++ quoted "age" ++ ":22}")%string.

Definition sample_json : json :=
  JObject [ ("height_cm", JNumber (180 # 1));
            ("dominant_foot", JString "right");
            ("position", JString "striker");
            ("age", JNumber (22 # 1)) ].



(** ** Theorems *)

(** *** Clamping *)

Lemma clamp_unit_interval (x : R) :
  0 <= Math_min (Math_max x 0) 1 <= 1 /\
  (0 <= x <= 1 -> Math_min (Math_max x 0) 1 = x) /\
  (x <= 0 -> Math_min (Math_max x 0) 1 = 0) /\
  (1 <= x -> Math_min (Math_max x 0) 1 = 1).
Proof.
  unfold Math_min, Math_max, Rmin, Rmax.
  destruct (Rle_dec x 0);
    [destruct (Rle_dec 0 1) | destruct (Rle_dec x 1)];
    repeat split; intros; lra.
Qed.

(** *** [JSON.parse]: the fuel is enough *)

Lemma skip_ws_length (s : list byte) : (length (Json.skip_ws s) <= length s)%nat.
Proof.
  induction s as [|c s IH]; simpl; [lia|].
  destruct (Json.is_ws c); simpl; lia.
Qed.

Lemma eat_length (c : byte) (s r : list byte) :
  Json.eat c s = Some r -> length s = S (length r).
Proof.
  destruct s as [|d s]; simpl; [discriminate|].
  destruct (Byte.eqb c d); [|discriminate]. now intros [= ->].
Qed.

Lemma eat_all_length (lit s r : list byte) :
  Json.eat_all lit s = Some r -> length s = (length lit + length r)%nat.
Proof.
  revert s; induction lit as [|c lit IH]; intros s; simpl.
  - now intros [= ->].
  - destruct (Json.eat c s) as [r1|] eqn:E; [|discriminate].
    intros H. apply IH in H. apply eat_length in E. lia.
Qed.

Lemma digits_length (s : list byte) (acc : Z) (count : nat) :
  (length (snd (Json.digits s acc count)) <= length s)%nat.
Proof.
  revert acc count; induction s as [|c s IH]; intros acc count;
    cbn [Json.digits snd length]; [lia|].
  destruct (Json.digit c) as [d|]; cbn [snd length]; [|lia].
  specialize (IH (10 * acc + d)%Z (S count)). lia.
Qed.

Lemma parse_int_length (s r : list byte) (m : Z) :
  Json.parse_int s = Some (m, r) -> (length r < length s)%nat.
Proof.
  unfold Json.parse_int. destruct s as [|c s]; [discriminate|].
  destruct (Json.digit c) as [d|]; [|discriminate].
  destruct (d =? 0)%Z.
  - intros [= _ <-]. simpl; lia.
  - pose proof (digits_length s d O) as H.
    destruct (Json.digits s d O) as [[m' n] r']. intros [= _ <-]. simpl in *; lia.
Qed.

Lemma parse_fraction_length (s r : list byte) (m m' : Z) (n : nat) :
  Json.parse_fraction m s = Some (m', n, r) -> (length r <= length s)%nat.
Proof.
  unfold Json.parse_fraction. destruct (Json.eat x2e s) as [s1|] eqn:E.
  - apply eat_length in E. pose proof (digits_length s1 m O) as H.
    destruct (Json.digits s1 m O) as [[m1 n1] r1].
    destruct (n1 =? 0)%nat; [discriminate|]. intros [= _ _ <-]. simpl in *; lia.
  - intros [= _ _ <-]. lia.
Qed.

Lemma parse_exponent_length (s r : list byte) (e : Z) :
  Json.parse_exponent s = Some (e, r) -> (length r <= length s)%nat.
Proof.
  unfold Json.parse_exponent. destruct s as [|c s]; [intros [= _ <-]; lia|].
  destruct (Byte.eqb c x65 || Byte.eqb c x45); [|intros [= _ <-]; lia].
  destruct (Json.eat x2d s) as [s1|] eqn:E1; [|destruct (Json.eat x2b s) as [s1|] eqn:E2].
  - apply eat_length in E1. pose proof (digits_length s1 0%Z O) as H.
    destruct (Json.digits s1 0%Z O) as [[e1 n1] r1].
    destruct (n1 =? 0)%nat; [discriminate|]. intros [= _ <-]. simpl in *; lia.
  - apply eat_length in E2. pose proof (digits_length s1 0%Z O) as H.
    destruct (Json.digits s1 0%Z O) as [[e1 n1] r1].
    destruct (n1 =? 0)%nat; [discriminate|]. intros [= _ <-]. simpl in *; lia.
  - pose proof (digits_length s 0%Z O) as H.
    destruct (Json.digits s 0%Z O) as [[e1 n1] r1].
    destruct (n1 =? 0)%nat; [discriminate|]. intros [= _ <-]. simpl in *; lia.
Qed.

Lemma parse_unsigned_length (s r : list byte) (q : Q) :
  Json.parse_unsigned s = Some (q, r) -> (length r < length s)%nat.
Proof.
  unfold Json.parse_unsigned.
  destruct (Json.parse_int s) as [[m r1]|] eqn:E1; [|discriminate].
  destruct (Json.parse_fraction m r1) as [[[m2 n] r2]|] eqn:E2; [|discriminate].
  destruct (Json.parse_exponent r2) as [[e r3]|] eqn:E3; [|discriminate].
  intros [= _ <-].
  apply parse_int_length in E1. apply parse_fraction_length in E2.
  apply parse_exponent_length in E3. lia.
Qed.

Lemma parse_number_length (s r : list byte) (q : Q) :
  Json.parse_number s = Some (q, r) -> (length r < length s)%nat.
Proof.
  unfold Json.parse_number. destruct (Json.eat x2d s) as [s1|] eqn:E.
  - apply eat_length in E.
    destruct (Json.parse_unsigned s1) as [[q1 r1]|] eqn:E1; [|discriminate].
    intros [= _ <-]. apply parse_unsigned_length in E1. lia.
  - apply parse_unsigned_length.
Qed.

Lemma parse_string_length (s acc r : list byte) (str : string) :
  Json.parse_string s acc = Some (str, r) -> (length r < length s)%nat.
Proof.
  remember (length s) as n eqn:Hn. 
  revert s acc Hn. induction n as [n IH] using lt_wf_ind. intros s acc Hn.
  destruct s as [|c s]; [discriminate|]. cbn [Json.parse_string].
  destruct (Byte.eqb c x22); [intros [= _ <-]; subst; simpl; lia|].
  destruct (Byte.eqb c x5c).
  - destruct s as [|e s]; [discriminate|].
    destruct (Json.simple_escape e).
    + intros H. apply (IH (length s)) in H; subst; simpl in *; lia.
    + destruct (Byte.eqb e x75); [|discriminate].
      destruct s as [|h1 [|h2 [|h3 [|h4 s]]]]; try discriminate.
      destruct (Json.hex h1), (Json.hex h2), (Json.hex h3), (Json.hex h4); try discriminate.
      intros H. apply (IH (length s)) in H; subst; simpl in *; lia.
  - destruct (Byte.to_N c <? 32)%N; [discriminate|].
    intros H. apply (IH (length s)) in H; subst; simpl in *; lia.
Qed.

(** With any fuel that is not zero, [parse_value] takes the branch the
    equations in the context select. *)
Ltac same_branch s' :=
  cbn [Json.parse_value]; fold s';
  repeat match goal with
         | E : ?scrutinee = _ |- context [?scrutinee] => rewrite E
         end;
  reflexivity.

(** A successful parse needs no more fuel than the bytes it reads. *)
Lemma parse_fuel (fuel : nat) :
  enough Json.parse_value fuel /\ enough Json.parse_elements fuel /\
  enough Json.parse_members fuel.
Proof.
  induction fuel as [|fuel (IHv & IHe & IHm)].
  { repeat split; discriminate. }
  split; [|split]; intros s r a H.
  - cbn [Json.parse_value] in H.
    pose proof (skip_ws_length s) as Hws.
    set (s' := Json.skip_ws s) in *.
    assert (Hleaf : forall res : json * list byte,
               Some res = Some (a, r) ->
               (forall g, Json.parse_value (S g) s = Some res) ->
               (length (snd res) < length s)%nat ->
               (length r < length s)%nat /\
               forall fuel', (length s - length r <= fuel')%nat ->
                             Json.parse_value fuel' s = Some (a, r)).
    { intros res [= ->] Hg Hlen. simpl in Hlen. split; [exact Hlen|].
      intros [|g] Hf; [lia|]. apply Hg. }
    destruct (Json.keyword "null" s') as [r1|] eqn:K1.
    { apply (Hleaf _ H); [intros g; same_branch s'|].
      apply eat_all_length in K1. simpl in *. lia. }
    destruct (Json.keyword "true" s') as [r1|] eqn:K2.
    { apply (Hleaf _ H); [intros g; same_branch s'|].
      apply eat_all_length in K2. simpl in *. lia. }
    destruct (Json.keyword "false" s') as [r1|] eqn:K3.
    { apply (Hleaf _ H); [intros g; same_branch s'|].
      apply eat_all_length in K3. simpl in *. lia. }
    destruct (Json.eat x22 s') as [r1|] eqn:E1.
    { destruct (Json.parse_string r1 []) as [[str r2]|] eqn:Es; [|discriminate].
      apply (Hleaf _ H); [intros g; same_branch s'|].
      apply eat_length in E1. apply parse_string_length in Es. simpl. lia. }
    destruct (Json.eat x5b s') as [r1|] eqn:E2.
    { pose proof (eat_length _ _ _ E2) as L2.
      pose proof (skip_ws_length r1) as Hws1.
      destruct (Json.eat x5d (Json.skip_ws r1)) as [r2|] eqn:E3.
      { apply (Hleaf _ H); [intros g; same_branch s'|].
        apply eat_length in E3. simpl. lia. }
      destruct (Json.parse_elements fuel r1) as [[items r2]|] eqn:Ee; [|discriminate].
      injection H as <- <-.
      destruct (IHe _ _ _ Ee) as [Hlen Hmore].
      split; [lia|]. intros [|g] Hg; [lia|].
      cbn [Json.parse_value]; fold s'. rewrite K1, K2, K3, E1, E2, E3.
      rewrite Hmore by lia. reflexivity. }
    destruct (Json.eat x7b s') as [r1|] eqn:E4.
    { pose proof (eat_length _ _ _ E4) as L4.
      pose proof (skip_ws_length r1) as Hws1.
      destruct (Json.eat x7d (Json.skip_ws r1)) as [r2|] eqn:E5.
      { apply (Hleaf _ H); [intros g; same_branch s'|].
        apply eat_length in E5. simpl. lia. }
      destruct (Json.parse_members fuel r1) as [[members r2]|] eqn:Em; [|discriminate].
      injection H as <- <-.
      destruct (IHm _ _ _ Em) as [Hlen Hmore].
      split; [lia|]. intros [|g] Hg; [lia|].
      cbn [Json.parse_value]; fold s'. rewrite K1, K2, K3, E1, E2, E4, E5.
      rewrite Hmore by lia. reflexivity. }
    destruct (Json.parse_number s') as [[q r1]|] eqn:En; [|discriminate].
    apply (Hleaf _ H); [intros g; same_branch s'|].
    apply parse_number_length in En. simpl. lia.
  - cbn [Json.parse_elements] in H.
    destruct (Json.parse_value fuel s) as [[v r1]|] eqn:Ev; [|discriminate].
    destruct (IHv _ _ _ Ev) as [Hlen Hmore].
    pose proof (skip_ws_length r1) as Hws.
    destruct (Json.eat x2c (Json.skip_ws r1)) as [r2|] eqn:E1.
    + pose proof (eat_length _ _ _ E1) as L1.
      destruct (Json.parse_elements fuel r2) as [[vs r3]|] eqn:Ee; [|discriminate].
      injection H as <- <-.
      destruct (IHe _ _ _ Ee) as [Hlen' Hmore'].
      split; [lia|]. intros [|g] Hg; [lia|].
      cbn [Json.parse_elements]. rewrite Hmore by lia. rewrite E1.
      rewrite Hmore' by lia. reflexivity.
    + destruct (Json.eat x5d (Json.skip_ws r1)) as [r2|] eqn:E2; [|discriminate].
      pose proof (eat_length _ _ _ E2) as L2.
      injection H as <- <-.
      split; [lia|]. intros [|g] Hg; [lia|].
      cbn [Json.parse_elements]. rewrite Hmore by lia. rewrite E1, E2. reflexivity.
  - cbn [Json.parse_members] in H.
    pose proof (skip_ws_length s) as Hws0.
    destruct (Json.eat x22 (Json.skip_ws s)) as [r0|] eqn:E0; [|discriminate].
    pose proof (eat_length _ _ _ E0) as L0.
    destruct (Json.parse_string r0 []) as [[key r0']|] eqn:Es; [|discriminate].
    pose proof (parse_string_length _ _ _ _ Es) as Ls.
    pose proof (skip_ws_length r0') as Hws0'.
    destruct (Json.eat x3a (Json.skip_ws r0')) as [r0''|] eqn:Ec; [|discriminate].
    pose proof (eat_length _ _ _ Ec) as Lc.
    destruct (Json.parse_value fuel r0'') as [[v r1]|] eqn:Ev; [|discriminate].
    destruct (IHv _ _ _ Ev) as [Hlen Hmore].
    pose proof (skip_ws_length r1) as Hws.
    destruct (Json.eat x2c (Json.skip_ws r1)) as [r2|] eqn:E1.
    + pose proof (eat_length _ _ _ E1) as L1.
      destruct (Json.parse_members fuel r2) as [[ms r3]|] eqn:Em; [|discriminate].
      injection H as <- <-.
      destruct (IHm _ _ _ Em) as [Hlen' Hmore'].
      split; [lia|]. intros [|g] Hg; [lia|].
      cbn [Json.parse_members]. rewrite E0, Es, Ec. rewrite Hmore by lia. rewrite E1.
      rewrite Hmore' by lia. reflexivity.
    + destruct (Json.eat x7d (Json.skip_ws r1)) as [r2|] eqn:E2; [|discriminate].
      pose proof (eat_length _ _ _ E2) as L2.
      injection H as <- <-.
      split; [lia|]. intros [|g] Hg; [lia|].
      cbn [Json.parse_members]. rewrite E0, Es, Ec. rewrite Hmore by lia.
      rewrite E1, E2. reflexivity.
Qed.

(** The fuel [JSON_parse] gives covers the whole text: what parses with
    some fuel parses with that one. *)
Lemma JSON_parse_fuel (s r : list byte) (v : json) (fuel : nat) :
  Json.parse_value fuel s = Some (v, r) ->
  Json.parse_value (2 * length s + 2) s = Some (v, r).
Proof.
  intros H. destruct (parse_fuel fuel) as (Hv & _ & _).
  destruct (Hv _ _ _ H) as [_ Hmore]. apply Hmore. lia.
Qed.

(** [JSON_parse] throws exactly when no fuel makes the text a JSON value
    followed by white space only. *)
Lemma JSON_parse_throws (text : string) :
  JSON_parse text = Throws SyntaxError <->
  forall (fuel : nat) (v : json) (r : list byte),
    Json.parse_value fuel (list_byte_of_string text) = Some (v, r) ->
    Json.skip_ws r <> [].
Proof.
  unfold JSON_parse. set (s := list_byte_of_string text). split.
  - intros H fuel v r Hp. rewrite (JSON_parse_fuel _ _ _ _ Hp) in H.
    destruct (Json.skip_ws r); discriminate.
  - intros H.
    destruct (Json.parse_value (2 * length s + 2) s) as [[v r]|] eqn:E;
      [|reflexivity].
    specialize (H _ _ _ E). destruct (Json.skip_ws r); [contradiction|reflexivity].
Qed.

(** *** Vector lengths *)

(** C1 (as the code behaves): [extractFeatures] returns 14 numbers for
    every input: six scalars, three foot flags and five position flags.
    The comment in the source and the specification both announce 17. *)
Theorem extractFeatures_length (attrs : PlayerAttributes) :
  length (extractFeatures attrs) = (6 + 3 + length posMap)%nat /\
  length (extractFeatures attrs) = 14%nat /\
  length (extractFeatures attrs) <> 17%nat.
Proof.
  assert (H : length (extractFeatures attrs) = 14%nat) by reflexivity.
  rewrite H. repeat split. discriminate.
Qed.

(** C2 (as the code behaves): the composed player vector has 18 entries,
    the 14 features followed by the four scaled metrics, whatever the
    attributes and the metrics.  The specification and the README give 21
    for it and for the roster vectors. *)
Theorem playerVec_length (attrs : PlayerAttributes) (metrics : Metrics) :
  length (playerVec attrs metrics)
    = (length (extractFeatures attrs) + length (metricVec metrics))%nat /\
  length (playerVec attrs metrics) = 18%nat /\
  length (playerVec attrs metrics) <> 21%nat.
Proof.
  assert (H : length (playerVec attrs metrics) = 18%nat) by reflexivity.
  rewrite H. repeat split. discriminate.
Qed.


(** *** Cosine similarity against the textbook formula *)

Lemma skipn_cons_nth_error {A : Type} (l : list A) (k : nat) (x : A) :
  nth_error l k = Some x -> skipn k l = x :: skipn (S k) l.
Proof.
  revert l; induction k as [|k IH]; intros [|y l] H; simpl in *;
    try discriminate.
  - now inversion H.
  - now apply IH.
Qed.

Lemma nth_error_in_range {A : Type} (l : list A) (k : nat) :
  (k < length l)%nat -> exists x, nth_error l k = Some x.
Proof.
  intros H. destruct (nth_error l k) eqn:E; [now eexists|].
  apply nth_error_None in E. lia.
Qed.

(** The loop invariant: after the turns [k .. k+n-1], all in range, each
    accumulator has grown by the matching partial sum. *)
Lemma cosineSim_loop (a b : list R) (n k : nat) (s : acc) :
  (k + n <= length a)%nat -> (k + n <= length b)%nat ->
  fold_left (cosineSim_step a b) (seq k n) (Some s) =
  Some {| dot := dot s + dot_product (firstn n (skipn k a)) (firstn n (skipn k b));
          na := na s + dot_product (firstn n (skipn k a)) (firstn n (skipn k a));
          nb := nb s + dot_product (firstn n (skipn k b)) (firstn n (skipn k b)) |}.
Proof.
  revert k s; induction n as [|n IH]; intros k s Ha Hb.
  - simpl. destruct s; simpl. unfold dot_product; simpl.
    now rewrite !Rplus_0_r.
  - destruct (nth_error_in_range a k) as [ai Hai]; [lia|].
    destruct (nth_error_in_range b k) as [bi Hbi]; [lia|].
    cbn [seq fold_left]. unfold cosineSim_step at 2.
    rewrite Hai, Hbi.
    rewrite IH by lia. cbn [dot na nb].
    rewrite (skipn_cons_nth_error a k ai Hai), (skipn_cons_nth_error b k bi Hbi).
    cbn [firstn]. unfold dot_product. cbn [combine map fold_right fst snd].
    f_equal. f_equal; lra.
Qed.

(** Past the end of [b] the result is [NaN]. *)
Lemma cosineSim_loop_short (a b : list R) (n k : nat) :
  fold_left (cosineSim_step a b) (seq k n) None = None.
Proof.
  revert k; induction n as [|n IH]; intros k; simpl; [reflexivity|].
  apply IH.
Qed.

Lemma cosineSim_long_enough (a b : list R) :
  (length a <= length b)%nat ->
  cosineSim a b = Some (cosine_formula a (firstn (length a) b)).
Proof.
  intros H. unfold cosineSim.
  rewrite cosineSim_loop by (simpl; lia).
  cbn [dot na nb skipn]. rewrite firstn_all.
  unfold cosine_formula, euclidean_norm. now rewrite !Rplus_0_l.
Qed.

(** Past the end of [b] the products are [NaN]. *)
Lemma cosineSim_too_short (a b : list R) :
  (length b < length a)%nat -> cosineSim a b = None.
Proof.
  intros H. unfold cosineSim.
  replace (length a) with (length b + S (length a - length b - 1))%nat by lia.
  rewrite seq_app, fold_left_app.
  rewrite cosineSim_loop by (simpl; lia).
  cbn [seq fold_left Nat.add]. unfold cosineSim_step at 2.
  destruct (nth_error a (length b)); [|now rewrite cosineSim_loop_short].
  rewrite (proj2 (nth_error_None b (length b))) by lia.
  now rewrite cosineSim_loop_short.
Qed.

(** C4: when [b] is at least as long as [a], [cosineSim a b] is a number
    (no error, no NaN): the dot product of [a] with the first [|a|]
    entries of [b] over the product of the two norms plus [1e-9]; what
    lies in [b] from index [|a|] on is never read, so replacing it changes
    nothing. *)
Theorem cosineSim_prefix (a b : list R) :
  (length a <= length b)%nat ->
  cosineSim a b =
    Some (dot_product a (firstn (length a) b) /
          (sqrt (dot_product a a) *
           sqrt (dot_product (firstn (length a) b) (firstn (length a) b)) +
           1e-9)) /\
  (forall b' : list R,
      firstn (length a) b' = firstn (length a) b ->
      cosineSim a b' = cosineSim a b) /\
  (forall tail : list R,
      cosineSim a (firstn (length a) b ++ tail) = cosineSim a b).
Proof.
  intros H. split; [|split].
  - now rewrite cosineSim_long_enough.
  - intros b' Hb'.
    assert (length a <= length b')%nat.
    { apply (f_equal (@length R)) in Hb'. rewrite !length_firstn in Hb'. lia. }
    rewrite !cosineSim_long_enough by assumption. now rewrite Hb'.
  - intros tail.
    assert (Hl : length (firstn (length a) b) = length a)
      by (rewrite length_firstn; lia).
    rewrite !cosineSim_long_enough by (try rewrite length_app; lia).
    rewrite firstn_app, Hl, Nat.sub_diag, firstn_O, app_nil_r.
    now rewrite firstn_firstn, Nat.min_id.
Qed.

Lemma cosineSim_prefix_witness :
  (length [3; 4] <= length [3; 4; 7])%nat /\
  cosineSim [3; 4] [3; 4; 7] = cosineSim [3; 4] [3; 4].
Proof.
  split; [simpl; lia|].
  destruct (cosineSim_prefix [3; 4] [3; 4; 7]) as (_ & _ & Htail);
    [simpl; lia|].
  symmetry. exact (Htail []).
Defined.

(** Against a roster vector of length 21, the length the README gives,
    the player vector is the shorter one: the loop compares its 18 entries
    with the first 18 of the roster vector and leaves the last three out. *)
Lemma cosineSim_roster_21 (attrs : PlayerAttributes) (metrics : Metrics)
      (features : list R) :
  length features = 21%nat ->
  (length (playerVec attrs metrics) < length features)%nat /\
  cosineSim (playerVec attrs metrics) features =
  cosineSim (playerVec attrs metrics) (firstn 18 features).
Proof.
  intros H. split; [rewrite H; simpl; lia|].
  rewrite !cosineSim_long_enough
    by (try rewrite length_firstn; rewrite H; simpl; lia).
  replace (length (playerVec attrs metrics)) with 18%nat by reflexivity.
  now rewrite firstn_firstn.
Qed.

(** *** The ranking *)

Lemma goes_after_compareFn (x y : Ranked.t) :
  goes_after compareFn x y = true <->
  exists sx sy, Ranked.similarity x = Some sx /\
                Ranked.similarity y = Some sy /\ sx < sy.
Proof.
  unfold goes_after, compareFn.
  destruct (Ranked.similarity y) as [sy|], (Ranked.similarity x) as [sx|];
    try (split; [discriminate | intros (? & ? & ? & ? & _); discriminate]).
  destruct (Rlt_dec 0 (sy - sx)) as [Hlt|Hge]; split; intros H;
    try discriminate; try reflexivity.
  - exists sx, sy. repeat split; lra.
  - destruct H as (sx' & sy' & Ex & Ey & Hlt).
    injection Ex as <-. injection Ey as <-. lra.
Qed.

Lemma sort_insert_Permutation {A : Type} (cmp : A -> A -> option R)
      (x : A) (l : list A) :
  Permutation (sort_insert cmp x l) (x :: l).
Proof.
  induction l as [|y l IH]; simpl; [constructor; constructor|].
  destruct (goes_after cmp x y); [|reflexivity].
  rewrite IH. apply perm_swap.
Qed.

Lemma Array_sort_Permutation {A : Type} (cmp : A -> A -> option R)
      (l : list A) :
  Permutation (Array_sort cmp l) l.
Proof.
  induction l as [|x l IH]; simpl; [constructor|].
  rewrite sort_insert_Permutation. now constructor.
Qed.

Lemma descending_trans (x y z : Ranked.t) :
  descending x y -> descending y z -> descending x z.
Proof.
  unfold descending.
  destruct (Ranked.similarity x), (Ranked.similarity y),
    (Ranked.similarity z); intros; try contradiction; lra.
Qed.

Lemma sort_insert_descending (x : Ranked.t) (l : list Ranked.t) :
  is_number x -> Forall is_number l ->
  StronglySorted descending l ->
  StronglySorted descending (sort_insert compareFn x l).
Proof.
  intros [sx Hx] Hnum Hs. induction Hs as [|y l Hs IH Hy]; simpl.
  - constructor; constructor.
  - inversion Hnum as [|? ? [sy Hsy] Hnum']; subst.
    destruct (goes_after compareFn x y) eqn:E.
    + apply goes_after_compareFn in E.
      destruct E as (sx' & sy' & Ex & Ey & Hlt).
      constructor; [now apply IH|].
      apply (Permutation_Forall (x := x :: l));
        [symmetry; apply sort_insert_Permutation|].
      constructor; [|assumption].
      unfold descending. rewrite Ex, Ey. lra.
    + assert (Hxy : descending x y).
      { unfold descending. rewrite Hx, Hsy.
        destruct (Rle_lt_dec sy sx) as [Hle|Hlt]; [assumption|].
        assert (goes_after compareFn x y = true) as E'
          by (apply goes_after_compareFn; now exists sx, sy).
        congruence. }
      constructor; [now constructor|].
      constructor; [assumption|].
      eapply Forall_impl; [|exact Hy].
      intros z Hz. now apply descending_trans with y.
Qed.

Lemma Array_sort_descending (l : list Ranked.t) :
  Forall is_number l -> StronglySorted descending (Array_sort compareFn l).
Proof.
  induction 1 as [|x l Hx Hl IH]; simpl; [constructor|].
  apply sort_insert_descending; try assumption.
  apply (Permutation_Forall (x := l)); [|assumption].
  symmetry. apply Array_sort_Permutation.
Qed.

(** Insertion moves [x] only past entries of strictly larger similarity,
    so entries of one similarity keep their order. *)
Lemma sort_insert_stable (k : R) (x : Ranked.t) (l : list Ranked.t) :
  filter (has_similarity k) (sort_insert compareFn x l) =
  filter (has_similarity k) (x :: l).
Proof.
  induction l as [|y l IH]; [reflexivity|].
  cbn [sort_insert]. destruct (goes_after compareFn x y) eqn:E; [|reflexivity].
  apply goes_after_compareFn in E. destruct E as (sx & sy & Ex & Ey & Hlt).
  assert (Hxy : has_similarity k x = true -> has_similarity k y = false).
  { unfold has_similarity. rewrite Ex, Ey.
    destruct (Req_dec_T sx k), (Req_dec_T sy k); try reflexivity;
      try discriminate; lra. }
  cbn [filter] in *. rewrite IH.
  destruct (has_similarity k x), (has_similarity k y); try reflexivity.
  now specialize (Hxy eq_refl).
Qed.

Lemma Array_sort_stable (k : R) (l : list Ranked.t) :
  filter (has_similarity k) (Array_sort compareFn l) =
  filter (has_similarity k) l.
Proof.
  induction l as [|x l IH]; [reflexivity|].
  cbn [Array_sort]. rewrite sort_insert_stable. cbn [filter]. now rewrite IH.
Qed.





Lemma goes_after_smaller (x y : Ranked.t) (sx sy : R) :
  Ranked.similarity x = Some sx -> Ranked.similarity y = Some sy ->
  sx < sy -> goes_after compareFn x y = true.
Proof. intros. apply goes_after_compareFn. now exists sx, sy. Qed.

Lemma goes_after_not_smaller (x y : Ranked.t) (sx sy : R) :
  Ranked.similarity x = Some sx -> Ranked.similarity y = Some sy ->
  sy <= sx -> goes_after compareFn x y = false.
Proof.
  intros Hx Hy Hle. destruct (goes_after compareFn x y) eqn:E; [|reflexivity].
  apply goes_after_compareFn in E. destruct E as (sx' & sy' & Ex & Ey & Hlt).
  rewrite Hx in Ex. rewrite Hy in Ey.
  injection Ex as <-. injection Ey as <-. lra.
Qed.

(** One comparison of the insertion, settled by arithmetic. *)
Ltac sort_step :=
  cbn [sort_insert];
  match goal with
  | |- context [goes_after compareFn ?x ?y] =>
      first [ rewrite (goes_after_smaller x y _ _ eq_refl eq_refl) by lra
            | rewrite (goes_after_not_smaller x y _ _ eq_refl eq_refl) by lra ]
  end.

(** The sort on four entries, two of them tied: the larger similarities
    come first and the tied entries keep their order. *)
Example Array_sort_sample :
  Array_sort compareFn
    [ with_similarity "a" 0.2; with_similarity "b" 0.9;
      with_similarity "c" 0.2; with_similarity "d" 0.5 ]
  = [ with_similarity "b" 0.9; with_similarity "d" 0.5;
      with_similarity "a" 0.2; with_similarity "c" 0.2 ].
Proof.
  cbn [Array_sort]. repeat sort_step. reflexivity.
Qed.

(** The stable descending arrangement of a list is unique, so the model of
    [Array.prototype.sort] does not depend on the sorting method chosen. *)
Lemma stable_descending_unique (l1 l2 : list Ranked.t) :
  Forall is_number l1 -> Forall is_number l2 ->
  StronglySorted descending l1 -> StronglySorted descending l2 ->
  (forall k, filter (has_similarity k) l1 = filter (has_similarity k) l2) ->
  l1 = l2.
Proof.
  intros N1; revert l2.
  induction N1 as [|x l1 [sx Hx] N1 IH]; intros l2 N2 S1 S2 Hf.
  - destruct N2 as [|y l2 [sy Hy] _]; [reflexivity|].
    specialize (Hf sy). cbn [filter] in Hf. unfold has_similarity at 1 in Hf.
    rewrite Hy in Hf. destruct (Req_dec_T sy sy); [discriminate|lra].
  - assert (Hxx : has_similarity sx x = true).
    { unfold has_similarity. rewrite Hx. destruct (Req_dec_T sx sx); [reflexivity|lra]. }
    destruct N2 as [|y l2 [sy Hy] N2].
    { specialize (Hf sx). cbn [filter] in Hf. rewrite Hxx in Hf. discriminate. }
    assert (Hyy : has_similarity sy y = true).
    { unfold has_similarity. rewrite Hy. destruct (Req_dec_T sy sy); [reflexivity|lra]. }
    assert (Hclass : forall z k, Ranked.similarity z = Some k ->
                                 forall k', has_similarity k' z = true -> k = k').
    { intros z k Hz k'. unfold has_similarity. rewrite Hz.
      destruct (Req_dec_T k k'); [auto|discriminate]. }
    inversion S1 as [|? ? S1' D1]; inversion S2 as [|? ? S2' D2]; subst.
    destruct (Req_dec_T sx sy) as [E|NE].
    + subst sy.
      pose proof (Hf sx) as Hsx. cbn [filter] in Hsx. rewrite Hxx, Hyy in Hsx.
      injection Hsx as <- _.
      f_equal. apply IH; try assumption.
      intros k. specialize (Hf k). cbn [filter] in Hf.
      destruct (has_similarity k x); [now injection Hf | exact Hf].
    + exfalso.
      assert (Hyx : has_similarity sy x = false).
      { destruct (has_similarity sy x) eqn:E; [|reflexivity].
        elim NE. now apply (Hclass x sx Hx sy). }
      assert (Hxy : has_similarity sx y = false).
      { destruct (has_similarity sx y) eqn:E; [|reflexivity].
        elim NE. symmetry. now apply (Hclass y sy Hy sx). }
      assert (Iy : In y l1).
      { pose proof (Hf sy) as H. cbn [filter] in H. rewrite Hyx, Hyy in H.
        apply (proj1 (filter_In (has_similarity sy) y l1)).
        rewrite H. now left. }
      assert (Ix : In x l2).
      { pose proof (Hf sx) as H. cbn [filter] in H. rewrite Hxx, Hxy in H.
        apply (proj1 (filter_In (has_similarity sx) x l2)).
        rewrite <- H. now left. }
      rewrite Forall_forall in D1, D2.
      pose proof (D1 y Iy) as A.
      pose proof (D2 x Ix) as B.
      unfold descending in A, B. rewrite Hx, Hy in A, B. lra.
Qed.

Corollary Array_sort_is_the_stable_sort (l sorted : list Ranked.t) :
  Forall is_number l ->
  Permutation sorted l ->
  StronglySorted descending sorted ->
  (forall k, filter (has_similarity k) sorted = filter (has_similarity k) l) ->
  sorted = Array_sort compareFn l.
Proof.
  intros Hl Hp Hs Hf. apply stable_descending_unique; try assumption.
  - apply (Permutation_Forall (x := l)); [now symmetry | assumption].
  - apply (Permutation_Forall (x := l)); [|assumption].
    symmetry. apply Array_sort_Permutation.
  - now apply Array_sort_descending.
  - intros k. now rewrite Array_sort_stable.
Qed.

(** *** Suggestions *)

Lemma fallback_is_distinct :
  ~ In suggestion_fallback
       [suggestion_knee; suggestion_lean; suggestion_tempo; suggestion_touches].
Proof.
  intros H. repeat (destruct H as [H|H]; [discriminate H|]). exact H.
Qed.

Ltac in_fixed_list H :=
  repeat (destruct H as [H|H]; [try discriminate H|]); try contradiction.

(** C6: the suggestions are the texts of the rules that fire, in the order
    knee flexion < 50, body lean < 10, sprint tempo < 160, touches < 15, or
    the fallback alone when none fires; so the list is never empty, and it
    holds the fallback exactly when no threshold is met. *)
Theorem suggestionsFromMetrics_rules (m : Metrics) :
  suggestionsFromMetrics m =
    match fired m with
    | [] => [suggestion_fallback]
    | _ :: _ => fired m
    end /\
  (1 <= length (suggestionsFromMetrics m))%nat /\
  (In suggestion_fallback (suggestionsFromMetrics m) <->
   (50 <= kneeFlex m /\ 10 <= bodyLean m /\
    160 <= sprintTempo m /\ 15 <= touches m)%Z) /\
  (In suggestion_fallback (suggestionsFromMetrics m) <->
   suggestionsFromMetrics m = [suggestion_fallback]).
Proof.
  unfold suggestionsFromMetrics, fired, threshold_rules, push.
  cbn [filter map fst snd].
  destruct (kneeFlex m <? 50)%Z eqn:Ek, (bodyLean m <? 10)%Z eqn:El,
    (sprintTempo m <? 160)%Z eqn:Et, (touches m <? 15)%Z eqn:Ec;
    cbn [app length Nat.eqb map snd];
    rewrite ?Z.ltb_lt, ?Z.ltb_ge in *;
    (split; [reflexivity|]); (split; [lia|]);
    (split; split; intros H);
    try (in_fixed_list H; fail); try lia; try discriminate H;
    try (now left); try (repeat split; assumption).
Qed.

Lemma suggestionsFromMetrics_rules_witness :
  suggestionsFromMetrics sample_metrics = [suggestion_fallback] /\
  suggestionsFromMetrics
    {| kneeFlex := 45; bodyLean := 12; sprintTempo := 150; touches := 10 |}
  = [suggestion_knee; suggestion_tempo; suggestion_touches].
Proof.
  split.
  - apply (proj2 (proj2 (proj2 (suggestionsFromMetrics_rules sample_metrics)))).
    apply (proj1 (proj2 (proj2 (suggestionsFromMetrics_rules sample_metrics)))).
    cbn. lia.
  - exact (proj1 (suggestionsFromMetrics_rules
      {| kneeFlex := 45; bodyLean := 12; sprintTempo := 150; touches := 10 |})).
Defined.

(** *** The vector composer *)

(** C7: the player vector is the feature vector followed by knee flexion
    over 120, body lean over 45, sprint tempo over 220 and touches over 60,
    in that order, each replaced by 1 when it exceeds 1. *)
Theorem playerVec_metric_tail (attrs : PlayerAttributes) (m : Metrics) :
  let q := [ IZR (kneeFlex m) / 120; IZR (bodyLean m) / 45;
             IZR (sprintTempo m) / 220; IZR (touches m) / 60 ] in
  firstn (length (extractFeatures attrs)) (playerVec attrs m)
    = extractFeatures attrs /\
  skipn (length (extractFeatures attrs)) (playerVec attrs m)
    = map (fun x => Math_min x 1) q /\
  Forall (fun v => v <= 1) (map (fun x => Math_min x 1) q) /\
  Forall (fun x => (x <= 1 -> Math_min x 1 = x) /\
                   (1 <= x -> Math_min x 1 = 1)) q.
Proof.
  cbv zeta. unfold playerVec. split; [|split; [|split]].
  - now rewrite firstn_app, Nat.sub_diag, firstn_O, app_nil_r, firstn_all.
  - now rewrite skipn_app, Nat.sub_diag, skipn_all.
  - cbn [map]. repeat (apply Forall_cons; [apply Rmin_r|]). apply Forall_nil.
  - repeat (apply Forall_cons;
            [split; intros; unfold Math_min;
             [now apply Rmin_left | now apply Rmin_right]|]).
    apply Forall_nil.
Qed.

(** The tail of the sample player vector: 60/120, 18/45, 170/220 and
    23/60, none of them clamped. *)
Example playerVec_sample_tail :
  skipn 14 (playerVec sample_attrs sample_metrics)
  = [1 / 2; 2 / 5; 17 / 22; 23 / 60].
Proof.
  unfold playerVec, metricVec, sample_metrics.
  cbn [extractFeatures app map posMap skipn
       kneeFlex bodyLean sprintTempo touches].
  unfold Math_min. rewrite !Rmin_left by lra.
  repeat (f_equal; try lra).
Qed.

(** *** A roster vector that is too short *)



(** *** Height and age *)

(** C8: the first two features are [(height_cm - 150) / 50] and
    [(age - 12) / 20] clamped into [[0, 1]]: always between 0 and 1, the
    quotient itself for a height in [[150, 200]] and an age in [[12, 32]],
    exactly 0 below the range and exactly 1 above it. *)
Theorem extractFeatures_height_age (attrs : PlayerAttributes) :
  exists h a rest,
    extractFeatures attrs = h :: a :: rest /\
    h = Math_min (Math_max ((height_cm attrs - 150) / 50) 0) 1 /\
    a = Math_min (Math_max ((age attrs - 12) / 20) 0) 1 /\
    0 <= h <= 1 /\ 0 <= a <= 1 /\
    (150 <= height_cm attrs <= 200 -> h = (height_cm attrs - 150) / 50) /\
    (12 <= age attrs <= 32 -> a = (age attrs - 12) / 20) /\
    (height_cm attrs <= 150 -> h = 0) /\
    (200 <= height_cm attrs -> h = 1) /\
    (age attrs <= 12 -> a = 0) /\
    (32 <= age attrs -> a = 1).
Proof.
  do 3 eexists. split; [reflexivity|].
  split; [reflexivity|]. split; [reflexivity|].
  destruct (clamp_unit_interval ((height_cm attrs - 150) / 50))
    as (Hh & Hh_in & Hh_lo & Hh_hi).
  destruct (clamp_unit_interval ((age attrs - 12) / 20))
    as (Ha & Ha_in & Ha_lo & Ha_hi).
  repeat split; try tauto; intros;
    (apply Hh_in || apply Hh_lo || apply Hh_hi ||
     apply Ha_in || apply Ha_lo || apply Ha_hi); lra.
Qed.

Lemma extractFeatures_height_age_witness :
  150 <= height_cm sample_attrs <= 200 /\
  12 <= age sample_attrs <= 32 /\
  nth 0 (extractFeatures sample_attrs) 0 = (180 - 150) / 50 /\
  nth 1 (extractFeatures sample_attrs) 0 = (22 - 12) / 20.
Proof.
  assert (Hh : 150 <= height_cm sample_attrs <= 200) by (simpl; lra).
  assert (Ha : 12 <= age sample_attrs <= 32) by (simpl; lra).
  split; [exact Hh|]. split; [exact Ha|].
  destruct (extractFeatures_height_age sample_attrs)
    as (h & a & rest & E & _ & _ & _ & _ & Hh_in & Ha_in & _).
  rewrite E. cbn [nth]. split; [exact (Hh_in Hh) | exact (Ha_in Ha)].
Defined.

(** A height of 140 and an age of 40 saturate. *)
Example extractFeatures_saturates :
  let attrs :=
    {| height_cm := 140; dominant_foot := None; position := None; age := 40;
       pace := None; dribbling := None; passing := None; shooting := None |} in
  firstn 2 (extractFeatures attrs) = [0; 1].
Proof.
  intros attrs. unfold extractFeatures, attrs.
  cbn [app firstn height_cm age].
  rewrite (proj1 (proj2 (proj2 (clamp_unit_interval _)))) by lra.
  rewrite (proj2 (proj2 (proj2 (clamp_unit_interval _)))) by lra.
  reflexivity.
Qed.

(** *** The foot flags *)

(** C9: the three foot flags sit at indices 6, 7 and 8.  They are
    [1, 0, 0] for the string "right", [0, 1, 0] for "left", [0, 0, 1] for
    "two-footed" and [0, 0, 0] for every other value, [undefined] and
    non-strings included; the encoder is total, so nothing is raised. *)
Theorem extractFeatures_foot_flags (attrs : PlayerAttributes) :
  let flags := firstn 3 (skipn 6 (extractFeatures attrs)) in
  let foot := dominant_foot attrs in
  (foot = Some (JString "right") -> flags = [1; 0; 0]) /\
  (foot = Some (JString "left") -> flags = [0; 1; 0]) /\
  (foot = Some (JString "two-footed") -> flags = [0; 0; 1]) /\
  (foot <> Some (JString "right") -> foot <> Some (JString "left") ->
   foot <> Some (JString "two-footed") -> flags = [0; 0; 0]).
Proof.
  cbv zeta. unfold extractFeatures. cbn [app skipn firstn].
  repeat split.
  - intros ->. reflexivity.
  - intros ->. reflexivity.
  - intros ->. reflexivity.
  - intros Hr Hl Ht. unfold strict_eq_string.
    destruct (dominant_foot attrs) as [[| | |s| |]|]; try reflexivity.
    destruct (String.eqb_spec s "right"); [congruence|].
    destruct (String.eqb_spec s "left"); [congruence|].
    destruct (String.eqb_spec s "two-footed"); [congruence|].
    reflexivity.
Qed.

Lemma extractFeatures_foot_flags_witness :
  dominant_foot sample_attrs = Some (JString "right") /\
  firstn 3 (skipn 6 (extractFeatures sample_attrs)) = [1; 0; 0].
Proof.
  split; [reflexivity|].
  exact (proj1 (extractFeatures_foot_flags sample_attrs) eq_refl).
Defined.

(** A value that is not a string, or a string in another case, sets no
    flag. *)
Example extractFeatures_foot_unmatched :
  forall foot : value,
    In foot [None; Some JNull; Some (JNumber 1); Some (JString "Right")] ->
    firstn 3 (skipn 6 (extractFeatures
      {| height_cm := 180; dominant_foot := foot; position := None; age := 22;
         pace := None; dribbling := None; passing := None; shooting := None |}))
    = [0; 0; 0].
Proof.
  intros foot H.
  repeat (destruct H as [<-|H]; [reflexivity|]). contradiction.
Qed.

(** *** The mock analyzer *)

(** [Math.round] returns an integer nearest to its argument. *)
Lemma Math_round_nearest (x : R) (n : Z) :
  Rabs (IZR (Math_round x) - x) <= / 2 /\
  Rabs (IZR (Math_round x) - x) <= Rabs (IZR n - x).
Proof.
  unfold Math_round.
  pose proof (Zfloor_bound (x + / 2)) as [Hlo Hhi].
  set (z := Zfloor (x + / 2)) in *.
  assert (Hz : Rabs (IZR z - x) <= / 2) by (apply Rabs_le; lra).
  split; [exact Hz|].
  destruct (Z.lt_trichotomy n z) as [Hlt | [-> | Hgt]].
  - assert (IZR n <= IZR z - 1)
      by (rewrite <- minus_IZR; apply IZR_le; lia).
    rewrite (Rabs_left (IZR n - x)) by lra. lra.
  - lra.
  - assert (IZR z + 1 <= IZR n)
      by (rewrite <- plus_IZR; apply IZR_le; lia).
    rewrite (Rabs_right (IZR n - x)) by lra. lra.
Qed.

(** Rounding a draw scaled into [[lo, lo + width)] stays within
    [[lo, lo + width]]. *)
Lemma Math_round_scaled (lo width : Z) (r : R) :
  (0 <= width)%Z -> 0 <= r < 1 ->
  (lo <= Math_round (IZR lo + r * IZR width) <= lo + width)%Z.
Proof.
  intros Hw [Hr0 Hr1]. unfold Math_round.
  assert (0 <= IZR width) by now apply IZR_le.
  assert (0 <= r * IZR width) by now apply Rmult_le_pos.
  assert (r * IZR width <= IZR width) by nra.
  split.
  - apply Zfloor_lub. lra.
  - pose proof (Zfloor_bound (IZR lo + r * IZR width + / 2)) as [Hlo _].
    apply Z.lt_succ_r, lt_IZR. unfold Z.succ.
    rewrite !plus_IZR. lra.
Qed.

(** C10: when the draws lie in [[0, 1)], the analyzer returns integers
    with knee flexion in [[30, 90]], body lean in [[5, 30]], sprint tempo in
    [[140, 200]] and touches in [[10, 35]]; each is within one half of its
    scaled draw (the nearest integer), the four metrics use four
    successive draws, and the generator is left four draws further. *)
Theorem analyzeVideoMock_ranges (g : RNG) :
  (forall n : nat, 0 <= g n < 1) ->
  let m := fst (analyzeVideoMock g) in
  (30 <= kneeFlex m <= 90)%Z /\
  (5 <= bodyLean m <= 30)%Z /\
  (140 <= sprintTempo m <= 200)%Z /\
  (10 <= touches m <= 35)%Z /\
  Rabs (IZR (kneeFlex m) - (30 + g 0%nat * 60)) <= / 2 /\
  Rabs (IZR (bodyLean m) - (5 + g 1%nat * 25)) <= / 2 /\
  Rabs (IZR (sprintTempo m) - (140 + g 2%nat * 60)) <= / 2 /\
  Rabs (IZR (touches m) - (10 + g 3%nat * 25)) <= / 2 /\
  (forall n : nat, snd (analyzeVideoMock g) n = g (4 + n)%nat).
Proof.
  intros Hg. cbv zeta. unfold analyzeVideoMock, Math_random.
  cbn [fst snd kneeFlex bodyLean sprintTempo touches].
  repeat split;
    try (apply (Math_round_scaled 30 60); [lia | apply Hg]);
    try (apply (Math_round_scaled 5 25); [lia | apply Hg]);
    try (apply (Math_round_scaled 140 60); [lia | apply Hg]);
    try (apply (Math_round_scaled 10 25); [lia | apply Hg]);
    try (apply (Math_round_nearest _ 0)).
Qed.

Lemma analyzeVideoMock_ranges_witness :
  (forall n : nat, 0 <= random sample_host n < 1) /\
  (30 <= kneeFlex (fst (analyzeVideoMock (random sample_host))) <= 90)%Z.
Proof.
  assert (H : forall n : nat, 0 <= random sample_host n < 1)
    by (intros n; simpl; lra).
  split; [exact H|].
  exact (proj1 (analyzeVideoMock_ranges (random sample_host) H)).
Defined.

(** Draws of one half give 60, 18 (from 17.5), 170 and 23 (from 22.5). *)
Example analyzeVideoMock_sample :
  fst (analyzeVideoMock (random sample_host)) = sample_metrics.
Proof.
  unfold analyzeVideoMock, Math_random, sample_host, sample_metrics,
    Math_round; cbn [fst random].
  f_equal; apply Zfloor_eq; lra.
Qed.

(** *** The handler's failure responses *)

Lemma analyze_try_missing (pros : list Pro.t) (host : Host)
      (attrRaw : option string) :
  falsy attrRaw = true ->
  analyze_try pros host attrRaw = Returns (missing_attributes, None).
Proof. intros H. unfold analyze_try. now rewrite H. Qed.

(** Whatever the [try] block returns has status 400 or 200, and 400 only
    from the guard on the missing field. *)
Lemma analyze_try_returns (pros : list Pro.t) (host : Host)
      (attrRaw : option string) (r : response) (saved : option Session.t) :
  analyze_try pros host attrRaw = Returns (r, saved) ->
  (falsy attrRaw = true /\ r = missing_attributes) \/
  (falsy attrRaw = false /\ status r = 200%nat).
Proof.
  unfold analyze_try. destruct (falsy attrRaw).
  - intros [= <- <-]. now left.
  - intros H. right. split; [reflexivity|].
    destruct (JSON_parse (ToString attrRaw)) as [attrs| |];
      cbn [bind] in H; try discriminate.
    destruct (destructure attrs) as [typed| |]; cbn [bind] in H;
      try discriminate.
    destruct (analyzeVideoMock (random host)) as [metrics g].
    destruct (writeFileSync host _) as [s| |]; cbn [bind] in H;
      try discriminate.
    now injection H as <- <-.
Qed.

(** C3 (amended): the handler answers 400 exactly when the attributes
    field is absent or empty.  A field that is present but is not valid
    JSON makes [JSON.parse] throw inside the [try] block, so the answer is
    500, as for every other exception; 500 is sent only when the [try]
    block threw. *)
Theorem analyze_failure_status (pros : list Pro.t) (host : Host)
        (attrRaw : option string) :
  (falsy attrRaw = true ->
   analyze pros host attrRaw = Returns (missing_attributes, None)) /\
  (falsy attrRaw = false ->
   JSON_parse (ToString attrRaw) = Throws SyntaxError ->
   analyze pros host attrRaw = Returns (failed_to_analyze, None)) /\
  (forall (r : response) (saved : option Session.t),
      analyze pros host attrRaw = Returns (r, saved) ->
      (status r = 400%nat <-> falsy attrRaw = true) /\
      (status r = 500%nat <->
       exists e, analyze_try pros host attrRaw = Throws e)).
Proof.
  unfold analyze. split; [|split].
  - intros H. now rewrite analyze_try_missing.
  - intros Hf Hp. unfold analyze_try. now rewrite Hf, Hp.
  - intros r saved H.
    destruct (analyze_try pros host attrRaw) as [[r' saved']| e |] eqn:E;
      cbn [try_catch] in H; try discriminate.
    + injection H as <- <-.
      destruct (analyze_try_returns _ _ _ _ _ E) as [[Hf ->] | [Hf Hs]].
      * split; split; intros H; try assumption; try reflexivity;
          try discriminate. destruct H as [e He]. discriminate.
      * rewrite Hs, Hf. split; split; intros H; try discriminate.
        destruct H as [e He]. discriminate.
    + injection H as <- <-. cbn [status failed_to_analyze].
      split; split; intros H; try discriminate; try reflexivity;
        try (now exists e).
      apply analyze_try_missing with (pros := pros) (host := host) in H.
      congruence.
Qed.

Lemma analyze_failure_status_witness :
  falsy (Some "{") = false /\
  JSON_parse (ToString (Some "{")) = Throws SyntaxError /\
  analyze sample_pros sample_host (Some "{")
    = Returns (failed_to_analyze, None).
Proof.
  assert (Hf : falsy (Some "{") = false) by reflexivity.
  assert (Hp : JSON_parse (ToString (Some "{")) = Throws SyntaxError)
    by (vm_compute; reflexivity).
  split; [exact Hf|]. split; [exact Hp|].
  exact (proj1 (proj2 (analyze_failure_status sample_pros sample_host
                                              (Some "{"))) Hf Hp).
Defined.

(** C3 (as stated) fails: the text [not json] is present and is not valid
    JSON, and the handler answers 500, not 400. *)
Lemma analyze_malformed_json_not_400 :
  JSON_parse "not json" = Throws SyntaxError /\
  exists (r : response) (saved : option Session.t),
    analyze sample_pros sample_host (Some "not json") = Returns (r, saved) /\
    status r = 500%nat /\ status r <> 400%nat.
Proof.
  assert (Hp : JSON_parse "not json" = Throws SyntaxError)
    by (vm_compute; reflexivity).
  split; [exact Hp|].
  exists failed_to_analyze, None.
  unfold analyze, analyze_try. cbn [falsy String.eqb ToString].
  rewrite Hp. cbn [bind try_catch].
  split; [reflexivity|]. split; [reflexivity|]. discriminate.
Qed.

(** Other ways through the handler: no field, [null] as attributes (the
    destructuring throws), and an object without the numeric attributes,
    which leaves the typed fragment. *)
Example analyze_other_requests :
  analyze sample_pros sample_host None = Returns (missing_attributes, None) /\
  analyze sample_pros sample_host (Some "null")
    = Returns (failed_to_analyze, None) /\
  analyze sample_pros sample_host (Some "{}") = Untyped.
Proof.
  split; [reflexivity|]. split.
  - unfold analyze, analyze_try. cbn [falsy String.eqb ToString].
    replace (JSON_parse "null") with (Returns JNull) by (vm_compute; reflexivity).
    reflexivity.
  - unfold analyze, analyze_try. cbn [falsy String.eqb ToString].
    replace (JSON_parse "{}") with (Returns (JObject []))
      by (vm_compute; reflexivity).
    reflexivity.
Qed.

(** *** A request that succeeds *)

Example JSON_parse_sample : JSON_parse sample_text = Returns sample_json.
Proof. vm_compute. reflexivity. Qed.

Example destructure_sample : destructure sample_json = Returns sample_attrs.
Proof.
  unfold destructure, sample_json, sample_attrs, get.
  cbn [lookup String.eqb Ascii.eqb Bool.eqb as_number as_optional_number bind].
  do 2 f_equal; unfold Q2R; cbn [Qnum Qden]; lra.
Qed.

(** The end-to-end example of the specification: status 200, the session
    id cut to eight characters, the metrics, the suggestions and the ranked
    roster, with the same data written to the session file. *)
Example analyze_sample :
  analyze sample_pros sample_host (Some sample_text) =
  let top := top sample_pros (playerVec sample_attrs sample_metrics) in
  Returns
    ({| status := 200;
        sent := AnalysisBody "0f8fad5b" sample_metrics
                             [suggestion_fallback] top |},
     Some {| Session.id := "0f8fad5b";
             Session.created_at := now sample_host;
             Session.attrs := sample_json;
             Session.metrics := sample_metrics;
             Session.similar_players := top |}).
Proof.
  unfold analyze, analyze_try.
  replace (falsy (Some sample_text)) with false by (vm_compute; reflexivity).
  cbn [ToString]. rewrite JSON_parse_sample. cbn [bind].
  rewrite destructure_sample. cbn [bind].
  pose proof analyzeVideoMock_sample as Hm.
  destruct (analyzeVideoMock (random sample_host)) as [metrics g].
  cbn [fst] in Hm. subst metrics.
  reflexivity.
Qed.

(** The same request when the session file cannot be written. *)
Example analyze_sample_write_fails :
  analyze sample_pros
          {| random := random sample_host; uuid := uuid sample_host;
             now := now sample_host; writable := false |}
          (Some sample_text)
  = Returns (failed_to_analyze, None).
Proof.
  unfold analyze, analyze_try.
  replace (falsy (Some sample_text)) with false by (vm_compute; reflexivity).
  cbn [ToString]. rewrite JSON_parse_sample. cbn [bind].
  rewrite destructure_sample. cbn [bind random].
  destruct (analyzeVideoMock (random sample_host)) as [metrics g].
  reflexivity.
Qed.

(** What a 200 response carries is the top of the ranking, so it lists
    [min 5 (roster size)] players. *)
Lemma analyze_success_similar_players (pros : list Pro.t) (host : Host)
      (attrRaw : option string) (r : response) (saved : option Session.t) :
  analyze pros host attrRaw = Returns (r, saved) ->
  status r = 200%nat ->
  exists id metrics suggestions similar_players,
    sent r = AnalysisBody id metrics suggestions similar_players /\
    length similar_players = Nat.min 5 (length pros).
Proof.
  unfold analyze, analyze_try. destruct (falsy attrRaw).
  - cbn [try_catch]. intros [= <- <-]. discriminate.
  - destruct (JSON_parse (ToString attrRaw)) as [attrs| |];
      cbn [bind try_catch]; try (intros [= <- <-]; discriminate);
      try discriminate.
    destruct (destructure attrs) as [typed| |];
      cbn [bind try_catch]; try (intros [= <- <-]; discriminate);
      try discriminate.
    destruct (analyzeVideoMock (random host)) as [metrics g].
    unfold writeFileSync. destruct (writable host);
      cbn [bind try_catch]; try (intros [= <- <-]; discriminate).
    intros [= <- <-] _. cbn [sent]. do 4 eexists. split; [reflexivity|].
    unfold top, Array_slice0, ranked. rewrite length_firstn.
    rewrite (Permutation_length (Array_sort_Permutation _ _)).
    now rewrite length_map.
Qed.

(** ** Further properties *)

(** *** The feature encoder *)

(** X1: the five position flags sit at indices 9 to 13.  A position that
    is the string at index [i] of [posMap] sets the flag at index [i] and no
    other; any other value, [undefined] and non-strings included, sets
    none. *)
Theorem extractFeatures_position_flags (attrs : PlayerAttributes) :
  let flags := skipn 9 (extractFeatures attrs) in
  (forall (i : nat) (p : string),
      nth_error posMap i = Some p ->
      position attrs = Some (JString p) -> flags = one_hot 5 i) /\
  ((forall p : string, In p posMap -> position attrs <> Some (JString p)) ->
   flags = [0; 0; 0; 0; 0]).
Proof.
  cbv zeta. unfold extractFeatures. cbn [app skipn]. split.
  - intros i p Hi Hp. rewrite Hp.
    do 5 (destruct i as [|i]; [injection Hi as <-; reflexivity|]).
    destruct i; discriminate.
  - intros H. unfold posMap in *. cbn [map].
    destruct (position attrs) as [[| | |s| |]|]; try reflexivity.
    cbn [strict_eq_string].
    repeat match goal with
           | |- context [String.eqb s ?lit] =>
               destruct (String.eqb_spec s lit) as [->|_];
               [elim (H lit); [simpl; tauto | reflexivity]|]
           end.
    reflexivity.
Qed.

Lemma extractFeatures_position_flags_witness :
  nth_error posMap 1 = Some "striker" /\
  position sample_attrs = Some (JString "striker") /\
  skipn 9 (extractFeatures sample_attrs) = [0; 1; 0; 0; 0].
Proof.
  split; [reflexivity|]. split; [reflexivity|].
  exact (proj1 (extractFeatures_position_flags sample_attrs)
               1%nat "striker" eq_refl eq_refl).
Defined.

Lemma flag_in_unit_interval (b : bool) :
  in_unit_interval (if b then 1 else 0).
Proof. unfold in_unit_interval. destruct b; lra. Qed.

Lemma extractFeatures_fixed_part (attrs : PlayerAttributes) :
  exists h a flags,
    extractFeatures attrs =
      [h; a; default_param 0.6 (pace attrs);
       default_param 0.6 (dribbling attrs);
       default_param 0.6 (passing attrs);
       default_param 0.6 (shooting attrs)] ++ flags /\
    in_unit_interval h /\ in_unit_interval a /\
    Forall in_unit_interval flags.
Proof.
  do 3 eexists. split; [reflexivity|].
  split; [apply clamp_unit_interval|]. split; [apply clamp_unit_interval|].
  cbn [map posMap].
  repeat (apply Forall_cons; [apply flag_in_unit_interval|]). apply Forall_nil.
Qed.

(** X2: the skill scores are copied into the vector unchecked, so the
    feature vector lies in [[0, 1]] exactly when the four skill scores
    (0.6 for a missing one) do; height, age and the flags always do. *)
Theorem extractFeatures_unit_interval (attrs : PlayerAttributes) :
  Forall in_unit_interval (extractFeatures attrs) <->
  in_unit_interval (default_param 0.6 (pace attrs)) /\
  in_unit_interval (default_param 0.6 (dribbling attrs)) /\
  in_unit_interval (default_param 0.6 (passing attrs)) /\
  in_unit_interval (default_param 0.6 (shooting attrs)).
Proof.
  destruct (extractFeatures_fixed_part attrs)
    as (h & a & flags & -> & Hh & Ha & Hflags).
  cbn [app]. repeat rewrite Forall_cons_iff. tauto.
Qed.

(** A score outside [[0, 1]] goes through as it is. *)
Example extractFeatures_unchecked_skill :
  nth 2 (extractFeatures
           {| height_cm := 180; dominant_foot := None; position := None;
              age := 22; pace := Some 7; dribbling := None; passing := None;
              shooting := None |}) 0 = 7.
Proof. reflexivity. Qed.

Lemma clamp_monotone (x y : R) :
  x <= y -> Math_min (Math_max x 0) 1 <= Math_min (Math_max y 0) 1.
Proof.
  intros H. unfold Math_min, Math_max.
  apply Rle_min_compat_r. apply Rle_max_compat_r. exact H.
Qed.

(** X24: the height and age features never decrease when the height or
    the age grows, and inside the ranges [[150, 200]] and [[12, 32]] they
    grow strictly, so two values in range are never mixed up. *)
Theorem extractFeatures_monotone (attrs attrs' : PlayerAttributes) :
  (height_cm attrs <= height_cm attrs' ->
   nth 0 (extractFeatures attrs) 0 <= nth 0 (extractFeatures attrs') 0) /\
  (age attrs <= age attrs' ->
   nth 1 (extractFeatures attrs) 0 <= nth 1 (extractFeatures attrs') 0) /\
  (150 <= height_cm attrs /\ height_cm attrs < height_cm attrs' <= 200 ->
   nth 0 (extractFeatures attrs) 0 < nth 0 (extractFeatures attrs') 0) /\
  (12 <= age attrs /\ age attrs < age attrs' <= 32 ->
   nth 1 (extractFeatures attrs) 0 < nth 1 (extractFeatures attrs') 0).
Proof.
  unfold extractFeatures. cbn [app nth]. repeat split.
  - intros H. apply clamp_monotone. lra.
  - intros H. apply clamp_monotone. lra.
  - intros H.
    rewrite !(proj1 (proj2 (clamp_unit_interval _))) by lra. lra.
  - intros H.
    rewrite !(proj1 (proj2 (clamp_unit_interval _))) by lra. lra.
Qed.

Lemma extractFeatures_monotone_witness :
  (150 <= height_cm sample_attrs /\ height_cm sample_attrs < 190 <= 200) /\
  nth 0 (extractFeatures sample_attrs) 0
  < nth 0 (extractFeatures
             {| height_cm := 190; dominant_foot := None; position := None;
                age := 22; pace := None; dribbling := None; passing := None;
                shooting := None |}) 0.
Proof.
  assert (H : 150 <= height_cm sample_attrs /\ height_cm sample_attrs < 190 <= 200)
    by (simpl; lra).
  split; [exact H|].
  exact (proj1 (proj2 (proj2 (extractFeatures_monotone sample_attrs
    {| height_cm := 190; dominant_foot := None; position := None;
       age := 22; pace := None; dribbling := None; passing := None;
       shooting := None |}))) H).
Defined.

(** *** Cosine similarity *)

(** X3: a second vector shorter than the first gives [NaN]; over the
    reals, where nothing overflows, that is the only way to [NaN]; an empty
    first vector gives 0 against anything. *)
Theorem cosineSim_NaN_iff_short (a b : list R) :
  (cosineSim a b = None <-> (length b < length a)%nat) /\
  cosineSim [] b = Some 0.
Proof.
  split; [split|].
  - intros H. destruct (Nat.lt_ge_cases (length b) (length a)) as [Hlt|Hge];
      [exact Hlt|].
    rewrite cosineSim_long_enough in H by exact Hge. discriminate.
  - apply cosineSim_too_short.
  - unfold cosineSim; cbn. f_equal. unfold Rdiv. apply Rmult_0_l.
Qed.

Lemma dot_product_cons (x y : R) (a b : list R) :
  dot_product (x :: a) (y :: b) = x * y + dot_product a b.
Proof. reflexivity. Qed.

Lemma dot_product_self_nonneg (a : list R) : 0 <= dot_product a a.
Proof.
  induction a as [|x a IH]; [unfold dot_product; simpl; lra|].
  rewrite dot_product_cons. nra.
Qed.

Lemma dot_product_comm (a b : list R) : dot_product a b = dot_product b a.
Proof.
  revert b; induction a as [|x a IH]; intros [|y b]; try reflexivity.
  rewrite !dot_product_cons, IH. lra.
Qed.

Lemma dot_product_nonneg (a b : list R) :
  Forall (fun x => 0 <= x) a -> Forall (fun x => 0 <= x) b ->
  0 <= dot_product a b.
Proof.
  intros Ha; revert b. induction Ha as [|x a Hx Ha IH]; intros b Hb.
  - unfold dot_product; simpl; lra.
  - destruct Hb as [|y b Hy Hb]; [unfold dot_product; simpl; lra|].
    rewrite dot_product_cons. specialize (IH b Hb). nra.
Qed.

Lemma Forall_prefix {A : Type} (P : A -> Prop) (n : nat) (l : list A) :
  Forall P l -> Forall P (firstn n l).
Proof.
  intros H; revert n. induction H as [|x l Hx Hl IH]; intros [|n];
    cbn [firstn]; try apply Forall_nil.
  apply Forall_cons; [exact Hx | apply IH].
Qed.

(** The Cauchy-Schwarz inequality for vectors of one length. *)
Lemma cauchy_schwarz (a b : list R) :
  length a = length b ->
  dot_product a b * dot_product a b <= dot_product a a * dot_product b b.
Proof.
  revert b; induction a as [|x a IH]; intros [|y b] H; try discriminate.
  - unfold dot_product; simpl; lra.
  - injection H as H. specialize (IH b H).
    rewrite !dot_product_cons.
    pose proof (dot_product_self_nonneg a) as HA.
    pose proof (dot_product_self_nonneg b) as HB.
    set (D := dot_product a b) in *.
    set (A := dot_product a a) in *.
    set (B := dot_product b b) in *.
    assert (Hmix : 2 * (x * y * D) <= x * x * B + A * (y * y)).
    { destruct (Rle_dec (2 * (x * y * D)) 0) as [Hneg|Hpos]; [nra|].
      apply Rnot_le_lt in Hpos.
      assert (Hsq : (2 * (x * y * D)) * (2 * (x * y * D))
                    <= (x * x * B + A * (y * y)) * (x * x * B + A * (y * y))).
      { assert (x * x * (y * y) * (D * D) <= x * x * (y * y) * (A * B)).
        { apply Rmult_le_compat_l; [nra | exact IH]. }
        pose proof (Rle_0_sqr (x * x * B - A * (y * y))) as Hq.
        unfold Rsqr in Hq. nra. }
      assert (Hsum : 0 <= x * x * B + A * (y * y)) by nra.
      set (u := 2 * (x * y * D)) in *.
      set (w := x * x * B + A * (y * y)) in *.
      destruct (Rle_dec u w) as [Hle|Hgt]; [exact Hle|].
      apply Rnot_le_lt in Hgt. nra. }
    nra.
Qed.

Lemma dot_product_le_norms (a b : list R) :
  length a = length b ->
  Rabs (dot_product a b) <= euclidean_norm a * euclidean_norm b.
Proof.
  intros H. unfold euclidean_norm.
  rewrite <- sqrt_mult
    by (apply dot_product_self_nonneg).
  rewrite <- sqrt_Rsqr_abs. apply sqrt_le_1_alt. unfold Rsqr.
  now apply cauchy_schwarz.
Qed.

Lemma norms_nonneg (a b : list R) : 0 <= euclidean_norm a * euclidean_norm b.
Proof.
  unfold euclidean_norm. apply Rmult_le_pos; apply sqrt_pos.
Qed.

Lemma cosine_formula_bounds (a b : list R) :
  length a = length b -> -1 < cosine_formula a b < 1.
Proof.
  intros H. unfold cosine_formula.
  pose proof (dot_product_le_norms a b H) as Hd.
  pose proof (norms_nonneg a b) as Hn.
  set (n := euclidean_norm a * euclidean_norm b) in *.
  set (d := dot_product a b) in *.
  assert (Hpos : 0 < n + 1e-9) by lra.
  assert (Hd' : - n <= d <= n)
    by (unfold Rabs in Hd; destruct (Rcase_abs d); lra).
  split.
  - apply Rmult_lt_reg_r with (n + 1e-9); [exact Hpos|].
    unfold Rdiv. rewrite Rmult_assoc, Rinv_l by lra. lra.
  - apply Rmult_lt_reg_r with (n + 1e-9); [exact Hpos|].
    unfold Rdiv. rewrite Rmult_assoc, Rinv_l by lra. lra.
Qed.

Lemma cosineSim_in_open_interval (a b : list R) (s : R) :
  cosineSim a b = Some s -> -1 < s < 1.
Proof.
  intros H.
  assert (Hlen : (length a <= length b)%nat).
  { destruct (Nat.lt_ge_cases (length b) (length a)) as [Hlt|Hge];
      [|exact Hge].
    rewrite cosineSim_too_short in H by exact Hlt. discriminate. }
  rewrite cosineSim_long_enough in H by exact Hlen. injection H as <-.
  apply cosine_formula_bounds. rewrite length_firstn. lia.
Qed.

(** X4: the denominator is never zero, and over the reals every
    similarity that is a number lies strictly between -1 and 1. *)
Theorem cosineSim_bounds (a b : list R) (s : R) :
  cosineSim a b = Some s -> -1 < s < 1.
Proof. apply cosineSim_in_open_interval. Qed.

Lemma cosineSim_bounds_witness :
  exists s : R, cosineSim [3; 4] [3; 4; 7] = Some s /\ -1 < s < 1.
Proof.
  destruct (cosineSim [3; 4] [3; 4; 7]) as [s|] eqn:E.
  - exists s. split; [reflexivity|]. exact (cosineSim_bounds _ _ _ E).
  - rewrite cosineSim_long_enough in E by (simpl; lia). discriminate.
Defined.

(** X5: vectors without negative entries, as the encoder and the composer
    produce, never get a negative similarity. *)
Theorem cosineSim_nonneg (a b : list R) (s : R) :
  Forall (fun x => 0 <= x) a -> Forall (fun x => 0 <= x) b ->
  cosineSim a b = Some s -> 0 <= s.
Proof.
  intros Ha Hb H.
  assert (Hlen : (length a <= length b)%nat).
  { destruct (Nat.lt_ge_cases (length b) (length a)) as [Hlt|Hge];
      [|exact Hge].
    rewrite cosineSim_too_short in H by exact Hlt. discriminate. }
  rewrite cosineSim_long_enough in H by exact Hlen. injection H as <-.
  unfold cosine_formula.
  pose proof (norms_nonneg a (firstn (length a) b)).
  apply Rmult_le_pos.
  - apply dot_product_nonneg; [exact Ha|]. now apply Forall_prefix.
  - apply Rlt_le, Rinv_0_lt_compat. lra.
Qed.

Lemma cosineSim_nonneg_witness :
  exists s : R, cosineSim [3; 4] [3; 4; 7] = Some s /\ 0 <= s.
Proof.
  assert (Ha : Forall (fun x => 0 <= x) [3; 4])
    by (repeat (apply Forall_cons; [lra|]); apply Forall_nil).
  assert (Hb : Forall (fun x => 0 <= x) [3; 4; 7])
    by (repeat (apply Forall_cons; [lra|]); apply Forall_nil).
  destruct (cosineSim [3; 4] [3; 4; 7]) as [s|] eqn:E.
  - exists s. split; [reflexivity|]. exact (cosineSim_nonneg _ _ _ Ha Hb E).
  - rewrite cosineSim_long_enough in E by (simpl; lia). discriminate.
Defined.

(** X6: over the reals, a vector against itself scores [n / (n + 1e-9)]
    with [n] the sum of its squares: 0 for the zero vector (no division by
    zero), and for any other vector below 1 by less than [1e-9 / n]. *)
Theorem cosineSim_self (a : list R) :
  let n := dot_product a a in
  cosineSim a a = Some (n / (n + 1e-9)) /\
  (n = 0 -> cosineSim a a = Some 0) /\
  (0 < n -> 1 - 1e-9 / n < n / (n + 1e-9) < 1).
Proof.
  cbv zeta. pose proof (dot_product_self_nonneg a) as Hn.
  assert (E : cosineSim a a
              = Some (dot_product a a / (dot_product a a + 1e-9))).
  { rewrite cosineSim_long_enough by lia. rewrite firstn_all.
    unfold cosine_formula, euclidean_norm. now rewrite sqrt_sqrt. }
  set (n := dot_product a a) in *. split; [exact E|]. split.
  - intros H0. rewrite E, H0. f_equal. unfold Rdiv. apply Rmult_0_l.
  - intros Hpos. split.
    + apply Rmult_lt_reg_r with (n * (n + 1e-9)); [nra|].
      replace ((1 - 1e-9 / n) * (n * (n + 1e-9)))
        with ((n - 1e-9) * (n + 1e-9)) by (field; lra).
      replace (n / (n + 1e-9) * (n * (n + 1e-9))) with (n * n)
        by (field; lra).
      nra.
    + apply Rmult_lt_reg_r with (n + 1e-9); [lra|].
      unfold Rdiv. rewrite Rmult_assoc, Rinv_l by lra. lra.
Qed.

Lemma cosineSim_self_witness :
  dot_product [3; 4] [3; 4] = 25 /\
  1 - 1e-9 / 25 < 25 / (25 + 1e-9) < 1 /\
  cosineSim [3; 4] [3; 4] = Some (25 / (25 + 1e-9)).
Proof.
  assert (E : dot_product [3; 4] [3; 4] = 25)
    by (unfold dot_product; simpl; lra).
  pose proof (cosineSim_self [3; 4]) as (Hs & _ & Hb).
  cbv zeta in Hs, Hb. rewrite E in Hs, Hb.
  split; [exact E|]. split; [apply Hb; lra | exact Hs].
Defined.

(** X7: for two vectors of one length the similarity does not depend on
    which is given first. *)
Theorem cosineSim_symmetric (a b : list R) :
  length a = length b -> cosineSim a b = cosineSim b a.
Proof.
  intros H. rewrite !cosineSim_long_enough by lia.
  rewrite <- H at 1. rewrite H at 1. rewrite !firstn_all2 by lia.
  unfold cosine_formula.
  now rewrite (dot_product_comm a b), (Rmult_comm (euclidean_norm a)).
Qed.

Lemma cosineSim_symmetric_witness :
  length [1; 2] = length [3; 4] /\
  cosineSim [1; 2] [3; 4] = cosineSim [3; 4] [1; 2].
Proof.
  split; [reflexivity|]. exact (cosineSim_symmetric [1; 2] [3; 4] eq_refl).
Defined.

(** *** The vector composer and the analyzer *)

Lemma clamp_max_unit (z d : Z) :
  (0 < d)%Z -> (in_unit_interval (Math_min (IZR z / IZR d) 1) <-> (0 <= z)%Z).
Proof.
  intros Hd. assert (Hd' : 0 < IZR d) by now apply IZR_lt.
  assert (Hq : IZR z = IZR z / IZR d * IZR d) by (field; lra).
  set (q := IZR z / IZR d) in *.
  unfold in_unit_interval, Math_min, Rmin.
  destruct (Rle_dec q 1) as [Hle|Hgt]; split.
  - intros [Hlo _]. apply le_IZR. nra.
  - intros Hz. apply IZR_le in Hz. split; [|exact Hle].
    destruct (Rle_dec 0 q) as [H0|H0]; [exact H0|].
    apply Rnot_le_lt in H0. nra.
  - intros _. apply le_IZR. apply Rnot_le_lt in Hgt. nra.
  - intros _. lra.
Qed.

(** X8: only an upper clamp is applied to the metrics, so the four scaled
    metrics lie in [[0, 1]] exactly when no metric is negative, and the
    whole player vector lies in [[0, 1]] exactly when, in addition, the
    four skill scores do. *)
Theorem playerVec_unit_interval (attrs : PlayerAttributes) (m : Metrics) :
  (Forall in_unit_interval (metricVec m) <->
   (0 <= kneeFlex m /\ 0 <= bodyLean m /\
    0 <= sprintTempo m /\ 0 <= touches m)%Z) /\
  (Forall in_unit_interval (playerVec attrs m) <->
   (in_unit_interval (default_param 0.6 (pace attrs)) /\
    in_unit_interval (default_param 0.6 (dribbling attrs)) /\
    in_unit_interval (default_param 0.6 (passing attrs)) /\
    in_unit_interval (default_param 0.6 (shooting attrs))) /\
   (0 <= kneeFlex m /\ 0 <= bodyLean m /\
    0 <= sprintTempo m /\ 0 <= touches m)%Z).
Proof.
  assert (Hm : Forall in_unit_interval (metricVec m) <->
               (0 <= kneeFlex m /\ 0 <= bodyLean m /\
                0 <= sprintTempo m /\ 0 <= touches m)%Z).
  { unfold metricVec. repeat rewrite Forall_cons_iff.
    rewrite (clamp_max_unit (kneeFlex m) 120), (clamp_max_unit (bodyLean m) 45),
      (clamp_max_unit (sprintTempo m) 220), (clamp_max_unit (touches m) 60)
      by lia.
    pose proof (Forall_nil in_unit_interval). tauto. }
  split; [exact Hm|].
  unfold playerVec. rewrite Forall_app, Hm.
  destruct (extractFeatures_fixed_part attrs)
    as (h & a & flags & -> & Hh & Ha & Hflags).
  cbn [app]. repeat rewrite Forall_cons_iff. tauto.
Qed.

(** A negative metric is not clamped. *)
Example metricVec_negative :
  nth 0 (metricVec {| kneeFlex := -60; bodyLean := 0; sprintTempo := 0;
                      touches := 0 |}) 0 = - (1 / 2).
Proof.
  unfold metricVec; cbn [nth kneeFlex]. unfold Math_min.
  rewrite Rmin_left by lra. lra.
Qed.

(** X9: on the metrics the analyzer returns the clamp never acts: the four
    entries appended are the plain quotients, between 1/4 and 3/4, 1/9 and
    2/3, 7/11 and 10/11, 1/6 and 7/12. *)
Theorem metricVec_of_analyzer (g : RNG) :
  (forall n : nat, 0 <= g n < 1) ->
  let m := fst (analyzeVideoMock g) in
  metricVec m = [ IZR (kneeFlex m) / 120; IZR (bodyLean m) / 45;
                  IZR (sprintTempo m) / 220; IZR (touches m) / 60 ] /\
  1 / 4 <= IZR (kneeFlex m) / 120 <= 3 / 4 /\
  1 / 9 <= IZR (bodyLean m) / 45 <= 2 / 3 /\
  7 / 11 <= IZR (sprintTempo m) / 220 <= 10 / 11 /\
  1 / 6 <= IZR (touches m) / 60 <= 7 / 12.
Proof.
  intros Hg. cbv zeta. unfold analyzeVideoMock, Math_random, metricVec.
  cbn [fst snd kneeFlex bodyLean sprintTempo touches].
  pose proof (Math_round_scaled 30 60 (g 0%nat) ltac:(lia) (Hg _)) as [K1 K2].
  pose proof (Math_round_scaled 5 25 (g 1%nat) ltac:(lia) (Hg _)) as [L1 L2].
  pose proof (Math_round_scaled 140 60 (g 2%nat) ltac:(lia) (Hg _)) as [T1 T2].
  pose proof (Math_round_scaled 10 25 (g 3%nat) ltac:(lia) (Hg _)) as [C1 C2].
  apply IZR_le in K1, K2, L1, L2, T1, T2, C1, C2.
  rewrite plus_IZR in K2, L2, T2, C2.
  unfold Math_min. rewrite !Rmin_left by lra.
  repeat split; lra.
Qed.

Lemma metricVec_of_analyzer_witness :
  (forall n : nat, 0 <= random sample_host n < 1) /\
  metricVec (fst (analyzeVideoMock (random sample_host)))
  = [ IZR (kneeFlex (fst (analyzeVideoMock (random sample_host)))) / 120;
      IZR (bodyLean (fst (analyzeVideoMock (random sample_host)))) / 45;
      IZR (sprintTempo (fst (analyzeVideoMock (random sample_host)))) / 220;
      IZR (touches (fst (analyzeVideoMock (random sample_host)))) / 60 ].
Proof.
  assert (H : forall n : nat, 0 <= random sample_host n < 1)
    by (intros n; simpl; lra).
  split; [exact H|].
  exact (proj1 (metricVec_of_analyzer (random sample_host) H)).
Defined.

(** [Math.round x] is below the integer [n] exactly when [x + 1/2] is. *)
Lemma Math_round_lt (x : R) (n : Z) :
  (Math_round x < n)%Z <-> x + / 2 < IZR n.
Proof.
  unfold Math_round. pose proof (Zfloor_bound (x + / 2)) as [Hlo Hhi].
  split.
  - intros H. assert (IZR (Zfloor (x + / 2)) + 1 <= IZR n)
      by (rewrite <- plus_IZR; apply IZR_le; lia).
    lra.
  - intros H. apply lt_IZR. lra.
Qed.

(** Every integer of a range is the rounding of some draw. *)
Lemma Math_round_scaled_onto (lo width z : Z) :
  (0 < width)%Z -> (lo <= z <= lo + width)%Z ->
  exists r : R, 0 <= r < 1 /\ Math_round (IZR lo + r * IZR width) = z.
Proof.
  intros Hw [Hlo Hhi]. assert (Hw' : 0 < IZR width) by now apply IZR_lt.
  destruct (Z.eq_dec z (lo + width)) as [->|Hne].
  - exists ((IZR width - / 2) / IZR width). split.
    + split.
      * apply Rmult_le_pos; [|now apply Rlt_le, Rinv_0_lt_compat].
        assert (1 <= IZR width) by (apply IZR_le; lia). lra.
      * apply Rmult_lt_reg_r with (IZR width); [exact Hw'|].
        unfold Rdiv. rewrite Rmult_assoc, Rinv_l by lra. lra.
    + unfold Math_round. apply Zfloor_eq. rewrite plus_IZR.
      unfold Rdiv. rewrite Rmult_assoc, Rinv_l by lra. lra.
  - exists (IZR (z - lo) / IZR width).
    assert (Hz : 0 <= IZR (z - lo)) by (apply IZR_le; lia).
    assert (Hz' : IZR (z - lo) + 1 <= IZR width)
      by (rewrite <- plus_IZR; apply IZR_le; lia).
    split.
    + split.
      * apply Rmult_le_pos; [exact Hz|]. now apply Rlt_le, Rinv_0_lt_compat.
      * apply Rmult_lt_reg_r with (IZR width); [exact Hw'|].
        unfold Rdiv. rewrite Rmult_assoc, Rinv_l by lra. lra.
    + unfold Math_round. apply Zfloor_eq.
      unfold Rdiv. rewrite Rmult_assoc, Rinv_l by lra.
      rewrite minus_IZR. lra.
Qed.

(** X10: the four ranges are tight: every metrics value with knee flexion
    in [[30, 90]], body lean in [[5, 30]], sprint tempo in [[140, 200]] and
    touches in [[10, 35]], the end points included, is what the analyzer
    returns for some draws in [[0, 1)]. *)
Theorem analyzeVideoMock_onto (m : Metrics) :
  (30 <= kneeFlex m <= 90)%Z -> (5 <= bodyLean m <= 30)%Z ->
  (140 <= sprintTempo m <= 200)%Z -> (10 <= touches m <= 35)%Z ->
  exists g : RNG,
    (forall n : nat, 0 <= g n < 1) /\ fst (analyzeVideoMock g) = m.
Proof.
  intros Hk Hl Ht Hc.
  destruct (Math_round_scaled_onto 30 60 (kneeFlex m)) as (r1 & R1 & E1);
    [lia | lia |].
  destruct (Math_round_scaled_onto 5 25 (bodyLean m)) as (r2 & R2 & E2);
    [lia | lia |].
  destruct (Math_round_scaled_onto 140 60 (sprintTempo m)) as (r3 & R3 & E3);
    [lia | lia |].
  destruct (Math_round_scaled_onto 10 25 (touches m)) as (r4 & R4 & E4);
    [lia | lia |].
  exists (fun n => match n with
                   | 0%nat => r1 | 1%nat => r2 | 2%nat => r3 | 3%nat => r4
                   | _ => 0
                   end).
  split.
  - intros [|[|[|[|n]]]]; try assumption. lra.
  - unfold analyzeVideoMock, Math_random. cbn [fst].
    rewrite E1, E2, E3, E4. now destruct m.
Qed.

Lemma analyzeVideoMock_onto_witness :
  exists g : RNG,
    (forall n : nat, 0 <= g n < 1) /\
    fst (analyzeVideoMock g)
    = {| kneeFlex := 90; bodyLean := 5; sprintTempo := 200; touches := 10 |}.
Proof.
  apply (analyzeVideoMock_onto
           {| kneeFlex := 90; bodyLean := 5; sprintTempo := 200;
              touches := 10 |}); cbn; lia.
Defined.

(** *** Suggestions *)

Ltac settle_membership :=
  match goal with
  | |- _ <-> _ => split; intros ?H
  | _ => idtac
  end;
  repeat match goal with
         | H : In _ (_ :: _) |- _ => destruct H as [H|H]
         | H : In _ [] |- _ => contradiction H
         | H : suggestion_knee = _ |- _ => discriminate H
         | H : suggestion_lean = _ |- _ => discriminate H
         | H : suggestion_tempo = _ |- _ => discriminate H
         | H : suggestion_touches = _ |- _ => discriminate H
         | H : suggestion_fallback = _ |- _ => discriminate H
         end;
  try lia; try (cbn [In]; tauto).

(** Which texts are in the list, and that none is there twice. *)
Lemma suggestion_members (m : Metrics) :
  (In suggestion_knee (suggestionsFromMetrics m) <-> (kneeFlex m < 50)%Z) /\
  (In suggestion_lean (suggestionsFromMetrics m) <-> (bodyLean m < 10)%Z) /\
  (In suggestion_tempo (suggestionsFromMetrics m)
   <-> (sprintTempo m < 160)%Z) /\
  (In suggestion_touches (suggestionsFromMetrics m) <-> (touches m < 15)%Z) /\
  (forall s, In s (suggestionsFromMetrics m) ->
             In s [suggestion_knee; suggestion_lean; suggestion_tempo;
                   suggestion_touches; suggestion_fallback]) /\
  NoDup (suggestionsFromMetrics m) /\
  (1 <= length (suggestionsFromMetrics m) <= 4)%nat.
Proof.
  unfold suggestionsFromMetrics, push.
  destruct (kneeFlex m <? 50)%Z eqn:Ek, (bodyLean m <? 10)%Z eqn:El,
    (sprintTempo m <? 160)%Z eqn:Et, (touches m <? 15)%Z eqn:Ec;
    cbn [app length Nat.eqb];
    rewrite ?Z.ltb_lt, ?Z.ltb_ge in *;
    (split; [settle_membership|]); (split; [settle_membership|]);
    (split; [settle_membership|]); (split; [settle_membership|]);
    (split; [intros s Hs; cbn [In] in *; tauto|]);
    (split; [|cbn; lia]);
    repeat (apply NoDup_cons; [intros Hin; settle_membership|]);
    apply NoDup_nil.
Qed.

(** X11: each of the four texts is in the list exactly when its own
    threshold is met, whatever the other metrics are; the list holds
    nothing but the five fixed texts, none of them twice, and between one
    and four entries. *)
Theorem suggestionsFromMetrics_members (m : Metrics) :
  (In suggestion_knee (suggestionsFromMetrics m) <-> (kneeFlex m < 50)%Z) /\
  (In suggestion_lean (suggestionsFromMetrics m) <-> (bodyLean m < 10)%Z) /\
  (In suggestion_tempo (suggestionsFromMetrics m)
   <-> (sprintTempo m < 160)%Z) /\
  (In suggestion_touches (suggestionsFromMetrics m) <-> (touches m < 15)%Z) /\
  (forall s, In s (suggestionsFromMetrics m) ->
             In s [suggestion_knee; suggestion_lean; suggestion_tempo;
                   suggestion_touches; suggestion_fallback]) /\
  NoDup (suggestionsFromMetrics m) /\
  (1 <= length (suggestionsFromMetrics m) <= 4)%nat.
Proof. exact (suggestion_members m). Qed.

(** X12: which suggestions a request gets is decided by its four draws
    alone: the knee text appears exactly for a first draw below 0.325,
    the lean text for a second draw below 0.18, the tempo text for a third
    draw below 0.325 and the touches text for a fourth draw below 0.18. *)
Theorem suggestions_of_draws (g : RNG) :
  let suggestions := suggestionsFromMetrics (fst (analyzeVideoMock g)) in
  (In suggestion_knee suggestions <-> g 0%nat < 0.325) /\
  (In suggestion_lean suggestions <-> g 1%nat < 0.18) /\
  (In suggestion_tempo suggestions <-> g 2%nat < 0.325) /\
  (In suggestion_touches suggestions <-> g 3%nat < 0.18).
Proof.
  cbv zeta.
  destruct (suggestion_members (fst (analyzeVideoMock g)))
    as (Hk & Hl & Ht & Hc & _).
  rewrite Hk, Hl, Ht, Hc.
  unfold analyzeVideoMock, Math_random.
  cbn [fst kneeFlex bodyLean sprintTempo touches].
  rewrite !Math_round_lt.
  repeat split; intros; lra.
Qed.

(** *** The ranking *)




Lemma in_prefix {A : Type} (n : nat) (l : list A) (x : A) :
  In x (firstn n l) -> In x l.
Proof.
  intros H. rewrite <- (firstn_skipn n l). apply in_or_app. now left.
Qed.

Lemma top_In_score (playerVec : list R) (pros : list Pro.t) (x : Ranked.t) :
  In x (top pros playerVec) ->
  exists p : Pro.t, In p pros /\ x = score playerVec p.
Proof.
  unfold top, Array_slice0, ranked. intros Hx. apply in_prefix in Hx.
  apply (Permutation_in _ (Array_sort_Permutation _ _)) in Hx.
  apply in_map_iff in Hx. destruct Hx as (p & <- & Hp). now exists p.
Qed.

(** X14: every entry returned is a roster entry with its own name,
    position and club and its own similarity to the player vector; a
    roster of at most five entries is returned whole. *)
Theorem top_from_roster (playerVec : list R) (pros : list Pro.t) :
  (forall x : Ranked.t,
      In x (top pros playerVec) ->
      exists p : Pro.t,
        In p pros /\
        Ranked.name x = Pro.name p /\
        Ranked.position x = Pro.position p /\
        Ranked.club x = Pro.club p /\
        Ranked.similarity x = cosineSim playerVec (Pro.features p)) /\
  ((length pros <= 5)%nat ->
   Permutation (top pros playerVec) (map (score playerVec) pros)).
Proof.
  split.
  - intros x Hx. destruct (top_In_score _ _ _ Hx) as (p & Hp & ->).
    exists p. repeat split. exact Hp.
  - intros H. unfold top, Array_slice0, ranked. rewrite firstn_all2.
    + apply Array_sort_Permutation.
    + rewrite (Permutation_length (Array_sort_Permutation _ _)).
      now rewrite length_map.
Qed.

Lemma top_from_roster_witness :
  (length sample_pros <= 5)%nat /\
  Permutation (top sample_pros (playerVec sample_attrs sample_metrics))
              (map (score (playerVec sample_attrs sample_metrics)) sample_pros).
Proof.
  assert (H : (length sample_pros <= 5)%nat) by (simpl; lia).
  split; [exact H|].
  exact (proj2 (top_from_roster _ _) H).
Defined.

Lemma score_truncated (playerVec : list R) (p : Pro.t) :
  (length playerVec <= length (Pro.features p))%nat ->
  score playerVec (truncated (length playerVec) p) = score playerVec p.
Proof.
  intros H. unfold score, truncated; cbn [Pro.name Pro.position Pro.club
                                          Pro.features].
  f_equal. rewrite !cosineSim_long_enough
    by (try rewrite length_firstn; lia).
  now rewrite firstn_firstn, Nat.min_id.
Qed.

(** X15: the ranking never looks at roster components beyond the length
    of the player vector: cutting every roster vector to that length
    leaves the ranking, similarities included, as it is. *)
Theorem ranked_ignores_tail (playerVec : list R) (pros : list Pro.t) :
  Forall (fun p => (length playerVec <= length (Pro.features p))%nat) pros ->
  ranked (map (truncated (length playerVec)) pros) playerVec
  = ranked pros playerVec /\
  top (map (truncated (length playerVec)) pros) playerVec
  = top pros playerVec.
Proof.
  intros H.
  assert (E : ranked (map (truncated (length playerVec)) pros) playerVec
              = ranked pros playerVec).
  { unfold ranked. f_equal. rewrite map_map. apply map_ext_in.
    intros p Hp. apply score_truncated.
    rewrite Forall_forall in H. now apply H. }
  split; [exact E|]. unfold top. now rewrite E.
Qed.

Lemma ranked_ignores_tail_witness :
  Forall (fun p => (length (playerVec sample_attrs sample_metrics)
                    <= length (Pro.features p))%nat) sample_pros /\
  top (map (truncated 18) sample_pros) (playerVec sample_attrs sample_metrics)
  = top sample_pros (playerVec sample_attrs sample_metrics).
Proof.
  assert (H : Forall (fun p => (length (playerVec sample_attrs sample_metrics)
                                <= length (Pro.features p))%nat) sample_pros).
  { unfold sample_pros.
    repeat (apply Forall_cons; [cbn [Pro.features sample_entry]; simpl; lia|]).
    apply Forall_nil. }
  split; [exact H|].
  exact (proj2 (ranked_ignores_tail _ _ H)).
Defined.

(** X16: a roster entry whose vector is shorter than the player vector
    gets the similarity [NaN], and the comparator then never moves it or
    anything across it: a roster in which every vector is too short comes
    back in roster order. *)
Theorem ranked_all_NaN (playerVec : list R) (pros : list Pro.t) :
  Forall (fun p => (length (Pro.features p) < length playerVec)%nat) pros ->
  Forall (fun x => Ranked.similarity x = None) (ranked pros playerVec) /\
  ranked pros playerVec = map (score playerVec) pros.
Proof.
  intros H.
  assert (Hnan : Forall (fun x => Ranked.similarity x = None)
                        (map (score playerVec) pros)).
  { apply Forall_map. eapply Forall_impl; [|exact H].
    intros p Hp. now apply cosineSim_too_short. }
  assert (E : ranked pros playerVec = map (score playerVec) pros).
  { unfold ranked. induction Hnan as [|x l Hx Hl IH]; [reflexivity|].
    cbn [Array_sort]. rewrite IH.
    destruct l as [|y l]; [reflexivity|]. cbn [sort_insert].
    unfold goes_after, compareFn. rewrite Hx.
    destruct (Ranked.similarity y); reflexivity. }
  split; [|exact E]. now rewrite E.
Qed.

Lemma ranked_all_NaN_witness :
  Forall (fun p => (length (Pro.features p) < length (repeat 1 22))%nat)
         sample_pros /\
  ranked sample_pros (repeat 1 22) = map (score (repeat 1 22)) sample_pros.
Proof.
  assert (H : Forall (fun p => (length (Pro.features p)
                                < length (repeat 1 22))%nat) sample_pros).
  { unfold sample_pros.
    repeat (apply Forall_cons; [cbn [Pro.features sample_entry]; simpl; lia|]).
    apply Forall_nil. }
  split; [exact H|].
  exact (proj2 (ranked_all_NaN (repeat 1 22) sample_pros H)).
Defined.

(** *** The handler *)

Lemma bind_Returns {A B : Type} (m : outcome A) (k : A -> outcome B) (b : B) :
  bind m k = Returns b -> exists a, m = Returns a /\ k a = Returns b.
Proof. destruct m as [a| |]; cbn; try discriminate. intros H. now exists a. Qed.

Lemma bind_Throws {A B : Type} (m : outcome A) (k : A -> outcome B) (e : exn) :
  bind m k = Throws e ->
  m = Throws e \/ exists a, m = Returns a /\ k a = Throws e.
Proof.
  destruct m as [a| |]; cbn; try discriminate.
  - intros H. right. now exists a.
  - intros [= ->]. now left.
Qed.

Lemma as_number_no_throw (v : value) (e : exn) : as_number v <> Throws e.
Proof. destruct v as [[| | | | |]|]; discriminate. Qed.

Lemma as_optional_number_no_throw (v : value) (e : exn) :
  as_optional_number v <> Throws e.
Proof. destruct v as [[| | | | |]|]; discriminate. Qed.

(** Destructuring throws for [null] only. *)
Lemma destructure_Throws (attrs : json) (e : exn) :
  destructure attrs = Throws e <-> attrs = JNull /\ e = TypeError.
Proof.
  split.
  - intros H.
    assert (Hbinds :
      (height_cm <- as_number (get attrs "height_cm") ;;
       age <- as_number (get attrs "age") ;;
       pace <- as_optional_number (get attrs "pace") ;;
       dribbling <- as_optional_number (get attrs "dribbling") ;;
       passing <- as_optional_number (get attrs "passing") ;;
       shooting <- as_optional_number (get attrs "shooting") ;;
       Returns {| height_cm := height_cm;
                  dominant_foot := get attrs "dominant_foot";
                  position := get attrs "position";
                  age := age; pace := pace; dribbling := dribbling;
                  passing := passing; shooting := shooting |}) <> Throws e).
    { intros Hb.
      repeat (apply bind_Throws in Hb;
              destruct Hb as [Hb | (? & _ & Hb)];
              [first [ now apply as_number_no_throw in Hb
                     | now apply as_optional_number_no_throw in Hb ]|]).
      discriminate. }
    destruct attrs; try (now elim Hbinds).
    cbn in H. injection H as <-. now split.
  - intros [-> ->]. reflexivity.
Qed.

(** What the [try] block returns once the guard is passed. *)
Lemma analyze_try_success (pros : list Pro.t) (host : Host)
      (attrRaw : option string) (r : response) (saved : option Session.t) :
  falsy attrRaw = false ->
  analyze_try pros host attrRaw = Returns (r, saved) ->
  exists attrs typed,
    JSON_parse (ToString attrRaw) = Returns attrs /\
    destructure attrs = Returns typed /\
    writable host = true /\
    let metrics := fst (analyzeVideoMock (random host)) in
    let players := top pros (playerVec typed metrics) in
    let id := substring 0 8 (uuid host) in
    r = {| status := 200;
           sent := AnalysisBody id metrics
                                (suggestionsFromMetrics metrics) players |} /\
    saved = Some {| Session.id := id;
                    Session.created_at := now host;
                    Session.attrs := attrs;
                    Session.metrics := metrics;
                    Session.similar_players := players |}.
Proof.
  intros Hf. unfold analyze_try. rewrite Hf. intros H.
  apply bind_Returns in H. destruct H as (attrs & Hp & H).
  apply bind_Returns in H. destruct H as (typed & Hd & H).
  exists attrs, typed. split; [exact Hp|]. split; [exact Hd|].
  destruct (analyzeVideoMock (random host)) as [metrics g]. cbn [fst].
  unfold writeFileSync in H. destruct (writable host); [|discriminate].
  cbn [bind] in H. injection H as <- <-. repeat split.
Qed.

Lemma analyze_try_success_conv (pros : list Pro.t) (host : Host)
      (attrRaw : option string) (attrs : json) (typed : PlayerAttributes) :
  falsy attrRaw = false ->
  JSON_parse (ToString attrRaw) = Returns attrs ->
  destructure attrs = Returns typed ->
  writable host = true ->
  exists r saved,
    analyze_try pros host attrRaw = Returns (r, saved) /\ status r = 200%nat.
Proof.
  intros Hf Hp Hd Hw. unfold analyze_try. rewrite Hf, Hp. cbn [bind].
  rewrite Hd. cbn [bind].
  destruct (analyzeVideoMock (random host)) as [metrics g].
  unfold writeFileSync. rewrite Hw. cbn [bind]. do 2 eexists.
  split; reflexivity.
Qed.

Lemma analyze_Returns (pros : list Pro.t) (host : Host)
      (attrRaw : option string) (r : response) (saved : option Session.t) :
  analyze pros host attrRaw = Returns (r, saved) ->
  analyze_try pros host attrRaw = Returns (r, saved) \/
  (exists e, analyze_try pros host attrRaw = Throws e) /\
  r = failed_to_analyze /\ saved = None.
Proof.
  unfold analyze.
  destruct (analyze_try pros host attrRaw) as [[r' s']|e|];
    cbn [try_catch]; try discriminate.
  - intros [= <- <-]. now left.
  - intros [= <- <-]. right. split; [now exists e | now split].
Qed.

(** Within the [try] block only three steps can throw. *)
Lemma analyze_try_Throws (pros : list Pro.t) (host : Host)
      (attrRaw : option string) (e : exn) :
  analyze_try pros host attrRaw = Throws e ->
  falsy attrRaw = false /\
  (JSON_parse (ToString attrRaw) = Throws SyntaxError \/
   JSON_parse (ToString attrRaw) = Returns JNull \/
   (writable host = false /\
    exists attrs typed,
      JSON_parse (ToString attrRaw) = Returns attrs /\
      destructure attrs = Returns typed)).
Proof.
  intros He. destruct (falsy attrRaw) eqn:Hf.
  { rewrite analyze_try_missing in He by exact Hf. discriminate. }
  split; [reflexivity|].
  unfold analyze_try in He. rewrite Hf in He.
  apply bind_Throws in He. destruct He as [He | (attrs & Hp & He)].
  { left. unfold JSON_parse in He |- *.
    destruct (Json.parse_value _ _) as [[v rest]|]; [|reflexivity].
    destruct (Json.skip_ws rest); [discriminate | reflexivity]. }
  apply bind_Throws in He. destruct He as [He | (typed & Hd & He)].
  { apply destructure_Throws in He. destruct He as [-> _].
    right. now left. }
  right. right.
  destruct (analyzeVideoMock (random host)) as [metrics g].
  unfold writeFileSync in He. destruct (writable host); [discriminate|].
  split; [reflexivity|]. now exists attrs, typed.
Qed.

Lemma destructure_Returns_not_null (attrs : json) (typed : PlayerAttributes) :
  destructure attrs = Returns typed -> attrs <> JNull.
Proof. intros H ->. discriminate H. Qed.

(** X17: on every request the model answers, the answer is 200 exactly
    when the attributes field is not empty, its text parses to a JSON
    value other than [null] and the session file can be written; and a
    request with typed attributes that meets these conditions is answered,
    with 200. *)
Theorem analyze_200_iff (pros : list Pro.t) (host : Host)
        (attrRaw : option string) :
  (forall (r : response) (saved : option Session.t),
      analyze pros host attrRaw = Returns (r, saved) ->
      (status r = 200%nat <->
       falsy attrRaw = false /\
       writable host = true /\
       exists attrs,
         JSON_parse (ToString attrRaw) = Returns attrs /\ attrs <> JNull)) /\
  (forall (attrs : json) (typed : PlayerAttributes),
      falsy attrRaw = false ->
      JSON_parse (ToString attrRaw) = Returns attrs ->
      destructure attrs = Returns typed ->
      writable host = true ->
      exists r saved,
        analyze pros host attrRaw = Returns (r, saved) /\
        status r = 200%nat).
Proof.
  split.
  - intros r saved H. apply analyze_Returns in H.
    destruct H as [H | ((e & He) & -> & _)].
    + destruct (falsy attrRaw) eqn:Hf.
      * rewrite analyze_try_missing in H by exact Hf. injection H as <- _.
        split; [discriminate | intros (Hc & _); discriminate].
      * destruct (analyze_try_success _ _ _ _ _ Hf H)
          as (attrs & typed & Hp & Hd & Hw & Hr & _).
        cbv zeta in Hr. subst r. split; [|reflexivity].
        intros _. split; [reflexivity|]. split; [exact Hw|].
        exists attrs. split; [exact Hp|].
        exact (destructure_Returns_not_null _ _ Hd).
    + split; [discriminate|].
      intros (_ & Hw & attrs & Hp & Hnull). exfalso.
      destruct (analyze_try_Throws _ _ _ _ He)
        as (_ & [Hc | [Hc | (Hc & _)]]); congruence.
  - intros attrs typed Hf Hp Hd Hw.
    destruct (analyze_try_success_conv pros host attrRaw attrs typed
                                       Hf Hp Hd Hw) as (r & saved & H & Hs).
    exists r, saved. split; [|exact Hs]. unfold analyze. now rewrite H.
Qed.

Lemma analyze_200_iff_witness :
  falsy (Some sample_text) = false /\
  writable sample_host = true /\
  exists attrs,
    JSON_parse (ToString (Some sample_text)) = Returns attrs /\
    attrs <> JNull.
Proof.
  pose proof analyze_sample as E. cbv zeta in E.
  exact (proj1 (proj1 (analyze_200_iff sample_pros sample_host
                                       (Some sample_text)) _ _ E) eq_refl).
Defined.

(** X18: on every request the model answers, the answer is 500 exactly
    when the attributes field is not empty and its text is not valid JSON,
    or is the JSON value [null], or parses to another value while the
    session file cannot be written; the first two causes give 500 on every
    request, the third on every request with typed attributes. *)
Theorem analyze_500_iff (pros : list Pro.t) (host : Host)
        (attrRaw : option string) :
  (forall (r : response) (saved : option Session.t),
      analyze pros host attrRaw = Returns (r, saved) ->
      (status r = 500%nat <->
       falsy attrRaw = false /\
       (JSON_parse (ToString attrRaw) = Throws SyntaxError \/
        JSON_parse (ToString attrRaw) = Returns JNull \/
        (writable host = false /\
         exists attrs,
           JSON_parse (ToString attrRaw) = Returns attrs /\
           attrs <> JNull)))) /\
  (falsy attrRaw = false ->
   JSON_parse (ToString attrRaw) = Throws SyntaxError \/
   JSON_parse (ToString attrRaw) = Returns JNull \/
   (writable host = false /\
    exists attrs typed,
      JSON_parse (ToString attrRaw) = Returns attrs /\
      destructure attrs = Returns typed) ->
   analyze pros host attrRaw = Returns (failed_to_analyze, None)).
Proof.
  assert (Hcause : falsy attrRaw = false ->
    JSON_parse (ToString attrRaw) = Throws SyntaxError \/
    JSON_parse (ToString attrRaw) = Returns JNull \/
    (writable host = false /\
     exists attrs typed,
       JSON_parse (ToString attrRaw) = Returns attrs /\
       destructure attrs = Returns typed) ->
    analyze pros host attrRaw = Returns (failed_to_analyze, None)).
  { intros Hf Hc. unfold analyze, analyze_try. rewrite Hf.
    destruct Hc as [Hp | [Hp | (Hw & attrs & typed & Hp & Hd)]];
      rewrite Hp; cbn [bind try_catch destructure]; try reflexivity.
    rewrite Hd. cbn [bind].
    destruct (analyzeVideoMock (random host)) as [metrics g].
    unfold writeFileSync. rewrite Hw. reflexivity. }
  split; [|exact Hcause].
  intros r saved H. pose proof H as H0. apply analyze_Returns in H.
  destruct H as [H | ((e & He) & -> & _)].
  - destruct (falsy attrRaw) eqn:Hf.
    + rewrite analyze_try_missing in H by exact Hf. injection H as <- _.
      split; [discriminate | intros (Hc & _); discriminate].
    + destruct (analyze_try_success _ _ _ _ _ Hf H)
        as (attrs & typed & Hp & Hd & Hw & Hr & _).
      cbv zeta in Hr. subst r. split; [discriminate|].
      intros (_ & [Hc | [Hc | (Hc & _)]]); exfalso; try congruence.
      rewrite Hp in Hc. injection Hc as ->. discriminate Hd.
  - split; [|reflexivity]. intros _.
    destruct (analyze_try_Throws _ _ _ _ He)
      as (Hf & [Hc | [Hc | (Hw & attrs & typed & Hp & Hd)]]).
    + split; [exact Hf|]. now left.
    + split; [exact Hf|]. right. now left.
    + split; [exact Hf|]. right. right. split; [exact Hw|].
      exists attrs. split; [exact Hp|].
      exact (destructure_Returns_not_null _ _ Hd).
Qed.

Lemma analyze_500_iff_witness :
  falsy (Some "[1, 2") = false /\
  JSON_parse (ToString (Some "[1, 2")) = Throws SyntaxError /\
  analyze sample_pros sample_host (Some "[1, 2")
  = Returns (failed_to_analyze, None).
Proof.
  assert (Hf : falsy (Some "[1, 2") = false) by reflexivity.
  assert (Hp : JSON_parse (ToString (Some "[1, 2")) = Throws SyntaxError)
    by (vm_compute; reflexivity).
  split; [exact Hf|]. split; [exact Hp|].
  exact (proj2 (analyze_500_iff sample_pros sample_host (Some "[1, 2"))
               Hf (or_introl Hp)).
Defined.

(** X19: a 200 is sent only after the session record has been written,
    and the record carries what the response carries: the same id (the
    first eight characters of the uuid), the same metrics and the same
    players, with the attributes as parsed and the time of the request.
    With a 400 no session record is written.  (The uploaded video is
    stored by the upload middleware before the handler runs; that file is
    not part of the model.) *)
Theorem analyze_session_record (pros : list Pro.t) (host : Host)
        (attrRaw : option string) (r : response) (saved : option Session.t) :
  analyze pros host attrRaw = Returns (r, saved) ->
  (status r = 200%nat ->
   exists record id metrics suggestions players,
     saved = Some record /\
     sent r = AnalysisBody id metrics suggestions players /\
     Session.id record = id /\
     id = substring 0 8 (uuid host) /\
     (String.length id <= 8)%nat /\
     Session.metrics record = metrics /\
     Session.similar_players record = players /\
     Session.created_at record = now host /\
     JSON_parse (ToString attrRaw) = Returns (Session.attrs record)) /\
  (status r = 400%nat -> saved = None).
Proof.
  intros H. apply analyze_Returns in H.
  destruct H as [H | (_ & -> & ->)];
    [|split; [discriminate | reflexivity]].
  destruct (falsy attrRaw) eqn:Hf.
  - rewrite analyze_try_missing in H by exact Hf. injection H as <- <-.
    split; [discriminate | reflexivity].
  - destruct (analyze_try_success _ _ _ _ _ Hf H)
      as (attrs & typed & Hp & Hd & Hw & Hr & Hsaved).
    cbv zeta in Hr, Hsaved. subst r saved. split; [|discriminate].
    intros _. do 5 eexists. split; [reflexivity|].
    cbn [sent Session.id Session.metrics Session.similar_players
         Session.created_at Session.attrs].
    repeat split; try assumption.
    clear. generalize (uuid host). intros u.
    assert (Hsub : forall n m s, (String.length (substring n m s) <= m)%nat).
    { intros n m s; revert n m.
      induction s as [|c s IH]; intros [|n] [|m]; cbn; try lia.
      - specialize (IH 0%nat m). lia.
      - apply IH.
      - apply IH. }
    apply Hsub.
Qed.

Lemma analyze_session_record_witness :
  exists record,
    analyze sample_pros sample_host (Some sample_text)
    = Returns ({| status := 200;
                  sent := AnalysisBody "0f8fad5b" sample_metrics
                            [suggestion_fallback]
                            (top sample_pros
                                 (playerVec sample_attrs sample_metrics)) |},
               Some record) /\
    Session.id record = "0f8fad5b".
Proof.
  pose proof analyze_sample as E. cbv zeta in E.
  destruct (proj1 (analyze_session_record _ _ _ _ _ E) eq_refl)
    as (record & id & metrics & suggestions & players
        & Hsaved & Hsent & Hid & _).
  exists record. injection Hsaved as <-. split; [exact E|]. reflexivity.
Defined.

(** X21: the shape of every 200 response when the draws lie in
    [[0, 1)]: four metrics within their ranges, between one and four
    suggestions, [min 5 (roster size)] players, and every similarity that
    is a number strictly between -1 and 1. *)
Theorem analyze_200_shape (pros : list Pro.t) (host : Host)
        (attrRaw : option string) (r : response) (saved : option Session.t) :
  (forall n : nat, 0 <= random host n < 1) ->
  analyze pros host attrRaw = Returns (r, saved) ->
  status r = 200%nat ->
  exists id metrics suggestions players,
    sent r = AnalysisBody id metrics suggestions players /\
    (30 <= kneeFlex metrics <= 90)%Z /\
    (5 <= bodyLean metrics <= 30)%Z /\
    (140 <= sprintTempo metrics <= 200)%Z /\
    (10 <= touches metrics <= 35)%Z /\
    (1 <= length suggestions <= 4)%nat /\
    length players = Nat.min 5 (length pros) /\
    (forall (x : Ranked.t) (s : R),
        In x players -> Ranked.similarity x = Some s -> -1 < s < 1).
Proof.
  intros Hg H Hs.
  destruct (analyze_success_similar_players _ _ _ _ _ H Hs)
    as (id0 & m0 & s0 & p0 & Hsent0 & Hlen).
  apply analyze_Returns in H. destruct H as [H | (_ & -> & _)];
    [|discriminate].
  destruct (falsy attrRaw) eqn:Hf.
  { rewrite analyze_try_missing in H by exact Hf. injection H as <- _.
    discriminate. }
  destruct (analyze_try_success _ _ _ _ _ Hf H)
    as (attrs & typed & _ & _ & _ & Hr & _).
  cbv zeta in Hr. subst r. cbn [sent] in *. injection Hsent0 as <- <- <- <-.
  do 4 eexists. split; [reflexivity|].
  unfold analyzeVideoMock, Math_random.
  cbn [fst kneeFlex bodyLean sprintTempo touches].
  split; [apply (Math_round_scaled 30 60); [lia | apply Hg]|].
  split; [apply (Math_round_scaled 5 25); [lia | apply Hg]|].
  split; [apply (Math_round_scaled 140 60); [lia | apply Hg]|].
  split; [apply (Math_round_scaled 10 25); [lia | apply Hg]|].
  split; [apply suggestion_members|].
  split; [exact Hlen|].
  intros x s Hx Hsim. destruct (top_In_score _ _ _ Hx) as (p & _ & ->).
  cbn [score Ranked.similarity] in Hsim.
  exact (cosineSim_in_open_interval _ _ _ Hsim).
Qed.

Lemma analyze_200_shape_witness :
  (forall n : nat, 0 <= random sample_host n < 1) /\
  exists r saved,
    analyze sample_pros sample_host (Some sample_text) = Returns (r, saved) /\
    status r = 200%nat /\
    exists id metrics suggestions players,
      sent r = AnalysisBody id metrics suggestions players /\
      length players = 3%nat.
Proof.
  assert (Hg : forall n : nat, 0 <= random sample_host n < 1)
    by (intros n; simpl; lra).
  split; [exact Hg|].
  pose proof analyze_sample as E. cbv zeta in E.
  destruct (analyze_200_shape _ _ _ _ _ Hg E eq_refl)
    as (id & metrics & suggestions & players & Hsent & _ & _ & _ & _ & _
        & Hlen & _).
  do 2 eexists. split; [exact E|]. split; [reflexivity|].
  exists id, metrics, suggestions, players. split; [exact Hsent|exact Hlen].
Defined.

(** *** Reading the attributes *)

Lemma lookup_skip (key k : string) (v : json) (ms1 ms2 : list (string * json)) :
  k <> key \/ lookup key ms2 <> None ->
  lookup key (ms1 ++ (k, v) :: ms2) = lookup key (ms1 ++ ms2).
Proof.
  intros H. induction ms1 as [|[k1 v1] ms1 IH]; cbn [app lookup].
  - destruct (lookup key ms2) as [later|]; [reflexivity|].
    destruct H as [H|H]; [|now elim H].
    now destruct (String.eqb_spec k key).
  - now rewrite IH.
Qed.

Lemma lookup_last (key : string) (v : json) (ms : list (string * json)) :
  lookup key (ms ++ [(key, v)]) = Some v.
Proof.
  induction ms as [|[k1 v1] ms IH]; cbn [app lookup].
  - now rewrite String.eqb_refl.
  - now rewrite IH.
Qed.

(** X22: the attributes are read by name.  A member with any other name
    does not change what the encoder is given, wherever it stands in the
    object; and of two members with one name the later one counts, so an
    earlier one can be dropped. *)
Theorem destructure_by_name (ms1 ms2 : list (string * json))
        (k : string) (v v' : json) :
  (~ In k ["height_cm"; "dominant_foot"; "position"; "age";
           "pace"; "dribbling"; "passing"; "shooting"] ->
   destructure (JObject (ms1 ++ (k, v) :: ms2))
   = destructure (JObject (ms1 ++ ms2))) /\
  destructure (JObject (ms1 ++ (k, v) :: ms2 ++ [(k, v')]))
  = destructure (JObject (ms1 ++ ms2 ++ [(k, v')])).
Proof.
  split.
  - intros Hk. unfold destructure, get.
    rewrite !(lookup_skip _ k v ms1 ms2)
      by (left; intros ->; apply Hk; cbn [In]; tauto).
    reflexivity.
  - unfold destructure, get.
    assert (E : forall key,
               lookup key (ms1 ++ (k, v) :: ms2 ++ [(k, v')])
               = lookup key (ms1 ++ ms2 ++ [(k, v')])).
    { intros key. apply lookup_skip.
      destruct (String.eqb_spec k key) as [->|Hne]; [right | now left].
      rewrite lookup_last. discriminate. }
    now rewrite !E.
Qed.

Lemma destructure_by_name_witness :
  ~ In "club" ["height_cm"; "dominant_foot"; "position"; "age";
               "pace"; "dribbling"; "passing"; "shooting"] /\
  destructure (JObject [("height_cm", JNumber (180 # 1));
                        ("club", JString "x");
                        ("age", JNumber (22 # 1))])
  = destructure (JObject [("height_cm", JNumber (180 # 1));
                          ("age", JNumber (22 # 1))]).
Proof.
  assert (H : ~ In "club" ["height_cm"; "dominant_foot"; "position"; "age";
                           "pace"; "dribbling"; "passing"; "shooting"]).
  { cbn [In]. intros H.
    repeat (destruct H as [H|H]; [discriminate H|]). exact H. }
  split; [exact H|].
  exact (proj1 (destructure_by_name [("height_cm", JNumber (180 # 1))]
                                    [("age", JNumber (22 # 1))]
                                    "club" (JString "x") JNull) H).
Defined.

(** X23: a skill score that is missing from the object takes the default
    0.6 in the feature vector; one that is a JSON number is copied with its
    value. *)
Theorem skill_defaults (attrs : json) (typed : PlayerAttributes) :
  destructure attrs = Returns typed ->
  (forall (i : nat) (key : string),
      nth_error ["pace"; "dribbling"; "passing"; "shooting"] i = Some key ->
      (get attrs key = None ->
       nth_error (extractFeatures typed) (2 + i) = Some 0.6) /\
      (forall q : Q,
          get attrs key = Some (JNumber q) ->
          nth_error (extractFeatures typed) (2 + i) = Some (Q2R q))).
Proof.
  intros H. unfold destructure in H.
  assert (Hbinds :
    (height_cm <- as_number (get attrs "height_cm") ;;
     age <- as_number (get attrs "age") ;;
     pace <- as_optional_number (get attrs "pace") ;;
     dribbling <- as_optional_number (get attrs "dribbling") ;;
     passing <- as_optional_number (get attrs "passing") ;;
     shooting <- as_optional_number (get attrs "shooting") ;;
     Returns {| height_cm := height_cm;
                dominant_foot := get attrs "dominant_foot";
                position := get attrs "position";
                age := age; pace := pace; dribbling := dribbling;
                passing := passing; shooting := shooting |})
    = Returns typed) by (destruct attrs; try exact H; discriminate H).
  clear H.
  apply bind_Returns in Hbinds. destruct Hbinds as (h & _ & Hbinds).
  apply bind_Returns in Hbinds. destruct Hbinds as (a & _ & Hbinds).
  apply bind_Returns in Hbinds. destruct Hbinds as (p1 & E1 & Hbinds).
  apply bind_Returns in Hbinds. destruct Hbinds as (p2 & E2 & Hbinds).
  apply bind_Returns in Hbinds. destruct Hbinds as (p3 & E3 & Hbinds).
  apply bind_Returns in Hbinds. destruct Hbinds as (p4 & E4 & Hbinds).
  injection Hbinds as <-.
  intros i key Hi.
  do 4 (destruct i as [|i];
        [injection Hi as <-; split;
         [intros Hnone | intros q Hq];
         match goal with
         | Hx : get attrs ?k = _, E : as_optional_number (get attrs ?k) = _
           |- _ => rewrite Hx in E; injection E as <-; reflexivity
         end|]).
  destruct i; discriminate.
Qed.

Lemma skill_defaults_witness :
  destructure sample_json = Returns sample_attrs /\
  get sample_json "pace" = None /\
  nth_error (extractFeatures sample_attrs) 2 = Some 0.6.
Proof.
  pose proof destructure_sample as E.
  split; [exact E|]. split; [reflexivity|].
  exact (proj1 (skill_defaults _ _ E 0%nat "pace" eq_refl) eq_refl).
Defined.

(** *** A blank attributes field *)

Lemma skip_ws_blank (s : list byte) :
  forallb Json.is_ws s = true -> Json.skip_ws s = [].
Proof.
  induction s as [|c s IH]; [reflexivity|]. cbn [forallb Json.skip_ws].
  destruct (Json.is_ws c); [exact IH | discriminate].
Qed.

Lemma JSON_parse_blank (text : string) :
  forallb Json.is_ws (list_byte_of_string text) = true ->
  JSON_parse text = Throws SyntaxError.
Proof.
  intros H. unfold JSON_parse.
  replace (2 * length (list_byte_of_string text) + 2)%nat
    with (S (2 * length (list_byte_of_string text) + 1)) by lia.
  cbn [Json.parse_value]. rewrite (skip_ws_blank _ H). reflexivity.
Qed.

(** X25: an attributes field that is not empty but holds white space only
    passes the guard on the missing field and fails in [JSON.parse]: the
    answer is 500, not 400. *)
Theorem analyze_blank_attributes (pros : list Pro.t) (host : Host)
        (text : string) :
  text <> EmptyString ->
  forallb Json.is_ws (list_byte_of_string text) = true ->
  analyze pros host (Some text) = Returns (failed_to_analyze, None).
Proof.
  intros Hne Hblank. unfold analyze, analyze_try. cbn [falsy ToString].
  destruct (String.eqb_spec text EmptyString) as [E|_]; [now elim Hne|].
  now rewrite (JSON_parse_blank _ Hblank).
Qed.

Lemma analyze_blank_attributes_witness :
  " " <> EmptyString /\
  forallb Json.is_ws (list_byte_of_string " ") = true /\
  analyze sample_pros sample_host (Some " ")
  = Returns (failed_to_analyze, None).
Proof.
  assert (Hne : " " <> EmptyString) by discriminate.
  assert (Hb : forallb Json.is_ws (list_byte_of_string " ") = true)
    by reflexivity.
  split; [exact Hne|]. split; [exact Hb|].
  exact (analyze_blank_attributes sample_pros sample_host " " Hne Hb).
Defined.

